(** * longhorn-manager: the VolumeManager facade (manager/manager.go)

    A shallow embedding of the volume lifecycle controller's facade.  Go
    functions become state-passing functions over the manager's state; a Go
    [error] result is an [option error] ([None] is [nil]); a Go pointer that
    may be [nil] is an [option]; a run-time panic is an outcome of its own. *)

From Stdlib Require Import ZArith String List.
From stdpp Require Import base option gmap strings list fin_maps.

Local Open Scope string_scope.

(** ** Package [types] *)

(** Modelled from the spec: package [types] is declared outside manager.go.
    Section 3 gives the state enumeration and the fields of the records;
    manager.go names the fields it reads and writes, and the embedded structs
    they are promoted from. *)
Module types.

(** [types.VolumeState]: the states the facade compares against. *)
Inductive VolumeState :=
| VolumeStateCreated
| VolumeStateDetached
| VolumeStateHealthy
| VolumeStateDegraded
| VolumeStateFault
| VolumeStateDeleted.

#[global] Instance VolumeState_eq_dec : EqDecision VolumeState.
Proof. solve_decision. Defined.

Record RecurringJob := { JobName : string; Cron : string }.

Record VolumeSpec := {
  OwnerID : string;
  Size : string;
  FromBackup : string;
  NumberOfReplicas : Z;
  StaleReplicaTimeout : Z;
  DesireState : VolumeState;
  RecurringJobs : list RecurringJob;
  NodeID : string;
}.

Record VolumeStatus := {
  Created : string;
  State : VolumeState;
}.

Record Metadata := { Name : string }.

(** [types.VolumeInfo] embeds the three structs above. *)
Record VolumeInfo := {
  volumeSpec : VolumeSpec;
  volumeStatus : VolumeStatus;
  metadata : Metadata;
}.

(** [types.ReplicaInfo]: keyed by volume and replica name; an empty
    [FailedAt] means the replica is healthy. *)
Record ReplicaInfo := {
  ReplicaName : string;
  VolumeName : string;
  FailedAt : string;
}.

(** [types.SettingsInfo]: the singleton settings record.  Its zero value is
    what [&types.SettingsInfo{}] builds. *)
Record SettingsInfo := { BackupTarget : string }.

Definition SettingsInfo_zero : SettingsInfo := {| BackupTarget := "" |}.

End types.
Import types.

(** Field assignments through the promoted fields of [VolumeInfo]. *)

Definition set_spec (f : VolumeSpec -> VolumeSpec) (v : VolumeInfo) : VolumeInfo :=
  {| volumeSpec := f (volumeSpec v);
     volumeStatus := volumeStatus v;
     metadata := metadata v |}.

Definition set_status (f : VolumeStatus -> VolumeStatus) (v : VolumeInfo) : VolumeInfo :=
  {| volumeSpec := volumeSpec v;
     volumeStatus := f (volumeStatus v);
     metadata := metadata v |}.

Definition set_OwnerID (x : string) : VolumeInfo -> VolumeInfo :=
  set_spec (fun s =>
    {| OwnerID := x; Size := Size s; FromBackup := FromBackup s;
       NumberOfReplicas := NumberOfReplicas s;
       StaleReplicaTimeout := StaleReplicaTimeout s;
       DesireState := DesireState s; RecurringJobs := RecurringJobs s;
       NodeID := NodeID s |}).

Definition set_NodeID (x : string) : VolumeInfo -> VolumeInfo :=
  set_spec (fun s =>
    {| OwnerID := OwnerID s; Size := Size s; FromBackup := FromBackup s;
       NumberOfReplicas := NumberOfReplicas s;
       StaleReplicaTimeout := StaleReplicaTimeout s;
       DesireState := DesireState s; RecurringJobs := RecurringJobs s;
       NodeID := x |}).

Definition set_DesireState (x : VolumeState) : VolumeInfo -> VolumeInfo :=
  set_spec (fun s =>
    {| OwnerID := OwnerID s; Size := Size s; FromBackup := FromBackup s;
       NumberOfReplicas := NumberOfReplicas s;
       StaleReplicaTimeout := StaleReplicaTimeout s;
       DesireState := x; RecurringJobs := RecurringJobs s;
       NodeID := NodeID s |}).

Definition set_RecurringJobs (x : list RecurringJob) : VolumeInfo -> VolumeInfo :=
  set_spec (fun s =>
    {| OwnerID := OwnerID s; Size := Size s; FromBackup := FromBackup s;
       NumberOfReplicas := NumberOfReplicas s;
       StaleReplicaTimeout := StaleReplicaTimeout s;
       DesireState := DesireState s; RecurringJobs := x;
       NodeID := NodeID s |}).

Definition set_Created (x : string) : VolumeInfo -> VolumeInfo :=
  set_status (fun s => {| Created := x; State := State s |}).

Definition set_State (x : VolumeState) : VolumeInfo -> VolumeInfo :=
  set_status (fun s => {| Created := Created s; State := x |}).

Definition set_Name (x : string) (v : VolumeInfo) : VolumeInfo :=
  {| volumeSpec := volumeSpec v;
     volumeStatus := volumeStatus v;
     metadata := {| Name := x |} |}.

Definition set_FailedAt (x : string) (r : ReplicaInfo) : ReplicaInfo :=
  {| ReplicaName := ReplicaName r; VolumeName := VolumeName r; FailedAt := x |}.

(** The promoted field reads [volume.Name], [volume.State], ... *)
Definition vName (v : VolumeInfo) : string := Name (metadata v).
Definition vState (v : VolumeInfo) : VolumeState := State (volumeStatus v).
Definition vCreated (v : VolumeInfo) : string := Created (volumeStatus v).
Definition vOwnerID (v : VolumeInfo) : string := OwnerID (volumeSpec v).
Definition vNodeID (v : VolumeInfo) : string := NodeID (volumeSpec v).
Definition vSize (v : VolumeInfo) : string := Size (volumeSpec v).
Definition vDesireState (v : VolumeInfo) : VolumeState := DesireState (volumeSpec v).

(** ** Errors

    [fmt.Errorf] keeps its format string and the values printed with [%v];
    [errors.Wrap] keeps the cause and the added message; [Failure] is an error
    value produced by a collaborator (datastore, size parser, engine API). *)

Inductive error :=
| Errorf (format : string) (args : list value)
| Wrap (cause : error) (message : string)
| Failure (origin : string)
with value :=
| VString (s : string)
| VState (s : VolumeState)
| VError (e : error).

(** ** Package [datastore] *)

(** Modelled from the spec: the datastore is an interface whose
    implementation is outside manager.go.  Section 6 gives its contract:
    records keyed by volume name (and replica name), "get" calls return a
    missing record as nil without an error, "update" calls fail on a record
    that does not exist; section 5 makes each call atomic on one record.
    Records handed out are copies: mutating one changes nothing durable until
    it is written back.  Collaborator failures (section 7, class d) are
    injected by a schedule: each call consumes one entry, and an entry
    [Some e] makes that call fail with [e] and touch nothing.  Every call is
    appended to [calls], oldest first. *)
Module datastore.

Inductive Call :=
| CallGetVolume (name : string)
| CallCreateVolume (v : VolumeInfo)
| CallUpdateVolume (v : VolumeInfo)
| CallGetVolumeReplica (volume replica : string)
| CallUpdateVolumeReplica (r : ReplicaInfo)
| CallGetSettings
| CallCreateSettings (s : SettingsInfo)
| CallUpdateSettings (s : SettingsInfo).

Record DataStore := {
  volumes : gmap string VolumeInfo;
  replicas : gmap (string * string) ReplicaInfo;
  settings : option SettingsInfo;
  faults : list (option error);
  calls : list Call;
}.

Definition with_volumes (x : gmap string VolumeInfo) (d : DataStore) :=
  {| volumes := x; replicas := replicas d; settings := settings d;
     faults := faults d; calls := calls d |}.
Definition with_replicas (x : gmap (string * string) ReplicaInfo) (d : DataStore) :=
  {| volumes := volumes d; replicas := x; settings := settings d;
     faults := faults d; calls := calls d |}.
Definition with_settings (x : option SettingsInfo) (d : DataStore) :=
  {| volumes := volumes d; replicas := replicas d; settings := x;
     faults := faults d; calls := calls d |}.
Definition with_faults (x : list (option error)) (d : DataStore) :=
  {| volumes := volumes d; replicas := replicas d; settings := settings d;
     faults := x; calls := calls d |}.
Definition logged (c : Call) (d : DataStore) :=
  {| volumes := volumes d; replicas := replicas d; settings := settings d;
     faults := faults d; calls := calls d ++ [c] |}.

(** One round trip: the call is logged and consumes one schedule entry; it
    fails with the injected error, if there is one, and runs otherwise. *)
Definition injected (d : DataStore) : option error :=
  match faults d with
  | Some e :: _ => Some e
  | _ => None
  end.

Definition served (c : Call) (d : DataStore) : DataStore :=
  with_faults (tail (faults d)) (logged c d).

Definition attempt {A} (c : Call) (failed : error -> A)
    (op : DataStore -> A * DataStore) (d : DataStore) : A * DataStore :=
  match injected d with
  | Some e => (failed e, served c d)
  | None => op (served c d)
  end.

Definition read {A} (c : Call) (get : DataStore -> option A)
    : DataStore -> (option A * option error) * DataStore :=
  attempt c (fun e => (None, Some e)) (fun d => ((get d, None), d)).

Definition write (c : Call) (put : DataStore -> error + DataStore)
    : DataStore -> option error * DataStore :=
  attempt c Some (fun d =>
    match put d with
    | inl e => (Some e, d)
    | inr d' => (None, d')
    end).

Definition GetVolume (name : string) :=
  read (CallGetVolume name) (fun d => volumes d !! name).

Definition CreateVolume (v : VolumeInfo) :=
  write (CallCreateVolume v) (fun d =>
    match volumes d !! vName v with
    | Some _ => inl (Failure "datastore: volume already exists")
    | None => inr (with_volumes (<[vName v := v]> (volumes d)) d)
    end).

Definition UpdateVolume (v : VolumeInfo) :=
  write (CallUpdateVolume v) (fun d =>
    match volumes d !! vName v with
    | Some _ => inr (with_volumes (<[vName v := v]> (volumes d)) d)
    | None => inl (Failure "datastore: no such volume")
    end).

Definition GetVolumeReplica (volume replica : string) :=
  read (CallGetVolumeReplica volume replica)
       (fun d => replicas d !! (volume, replica)).

Definition UpdateVolumeReplica (r : ReplicaInfo) :=
  write (CallUpdateVolumeReplica r) (fun d =>
    match replicas d !! (VolumeName r, ReplicaName r) with
    | Some _ =>
        inr (with_replicas (<[(VolumeName r, ReplicaName r) := r]> (replicas d)) d)
    | None => inl (Failure "datastore: no such replica")
    end).

Definition GetSettings := read CallGetSettings settings.

Definition CreateSettings (s : SettingsInfo) :=
  write (CallCreateSettings s) (fun d =>
    match settings d with
    | Some _ => inl (Failure "datastore: settings already exist")
    | None => inr (with_settings (Some s) d)
    end).

Definition UpdateSettings (s : SettingsInfo) :=
  write (CallUpdateSettings s) (fun d =>
    match settings d with
    | Some _ => inr (with_settings (Some s) d)
    | None => inl (Failure "datastore: no settings")
    end).

(** The durable part of a store. *)
Definition durable (d : DataStore) :=
  (volumes d, replicas d, settings d).

(** Records sit under the key their own fields name. *)
Definition keyed (d : DataStore) : Prop :=
  map_Forall (λ k v, vName v = k) (volumes d) ∧
  map_Forall (λ k r, (VolumeName r, ReplicaName r) = k) (replicas d).

End datastore.
Import datastore.


(** ** Package [manager] *)

(** The request structs; their declarations are outside manager.go, the
    fields are the ones the facade reads. *)

Module VolumeCreateRequest.
Record t := {
  Name : string;
  Size : string;
  FromBackup : string;
  NumberOfReplicas : Z;
  StaleReplicaTimeout : Z;
}.
End VolumeCreateRequest.

Module VolumeAttachRequest.
Record t := { Name : string; NodeID : string }.
End VolumeAttachRequest.

Module VolumeDetachRequest.
Record t := { Name : string }.
End VolumeDetachRequest.

Module VolumeDeleteRequest.
Record t := { Name : string }.
End VolumeDeleteRequest.

Module VolumeSalvageRequest.
Record t := { Name : string; SalvageReplicaNames : list string }.
End VolumeSalvageRequest.

Module VolumeRecurringUpdateRequest.
Record t := { Name : string; RecurringJobs : list RecurringJob }.
End VolumeRecurringUpdateRequest.

(** Modelled from the spec: [Event] is declared outside manager.go; it
    carries "at minimum a volume-name payload" (section 6). *)
Record Event := { EventVolumeName : string }.

(** Modelled from the spec: [ManagedVolume] is declared outside manager.go;
    it "wraps the current VolumeInfo view plus live handles" (section 3). *)
Record ManagedVolume := { managedInfo : VolumeInfo }.

(** [Node] and [engineapi.Backup]: the fields the facade reads. *)
Record Node := { ID : string }.
Record Backup := { VolumeSize : string }.

(** The manager's state.  [EventChan] holds the events sent so far, oldest
    first (whether a receiver is there to take them is not modelled);
    [logrus] holds the lines logged so far. *)
Record VolumeManager := {
  ds : DataStore;
  EventChan : list Event;
  managedVolumes : gmap string ManagedVolume;
  engineImage : string;
  logrus : list string;
}.

Definition with_ds (x : DataStore) (m : VolumeManager) :=
  {| ds := x; EventChan := EventChan m; managedVolumes := managedVolumes m;
     engineImage := engineImage m; logrus := logrus m |}.
Definition with_EventChan (x : list Event) (m : VolumeManager) :=
  {| ds := ds m; EventChan := x; managedVolumes := managedVolumes m;
     engineImage := engineImage m; logrus := logrus m |}.
Definition with_managedVolumes (x : gmap string ManagedVolume) (m : VolumeManager) :=
  {| ds := ds m; EventChan := EventChan m; managedVolumes := x;
     engineImage := engineImage m; logrus := logrus m |}.
Definition with_logrus (x : list string) (m : VolumeManager) :=
  {| ds := ds m; EventChan := EventChan m; managedVolumes := managedVolumes m;
     engineImage := engineImage m; logrus := x |}.

(** How a call ends: it returns, or it unwinds with a run-time panic.  A
    panic remembers the value the function's named result [err] holds at that
    moment, because deferred closures still run and read it. *)
Inductive outcome (A : Type) :=
| Returns (a : A)
| Panics (err : option error).
Arguments Returns {A} a.
Arguments Panics {A} err.

Definition M (A : Type) : Type := VolumeManager -> outcome A * VolumeManager.

Definition ret {A} (a : A) : M A := fun m => (Returns a, m).

Definition bind {A B} (c : M A) (k : A -> M B) : M B :=
  fun m =>
    match c m with
    | (Returns a, m') => k a m'
    | (Panics err, m') => (Panics err, m')
    end.

Definition panic {A} (err : option error) : M A := fun m => (Panics err, m).

Notation "'do' x <- c 'in' k" := (bind c (fun x => k))
  (at level 10, x pattern, c at level 200, k at level 200,
   format "'[v' 'do'  x  <-  c  'in' '/' k ']'").

(** [if err != nil { return err }] *)
Notation "'check' err 'in' k" :=
  (match err with Some e => ret (Some e) | None => k end)
  (at level 10, err at level 9, k at level 200,
   format "'[v' 'check'  err  'in' '/' k ']'").

(** A datastore round trip through [m.ds]. *)
Definition call {A} (op : DataStore -> A * DataStore) : M A :=
  fun m => let '(a, d) := op (ds m) in (Returns a, with_ds d m).

Definition Debugf (line : string) : M unit :=
  fun m => (Returns tt, with_logrus (logrus m ++ [line]) m).
Definition Warnf (line : string) : M unit := Debugf line.

(** [defer func() { ... }()] over the named result [err]: the closure runs
    when the body returns and also while a panic unwinds; after a panic the
    function still panics. *)
Definition deferred (closure : option error -> M (option error))
    (body : M (option error)) : M (option error) :=
  fun m =>
    match body m with
    | (Returns err, m') => closure err m'
    | (Panics err, m') =>
        match closure err m' with
        | (Returns err', m'') => (Panics err', m'')
        | (Panics err', m'') => (Panics err', m'')
        end
    end.

(** [if err != nil { err = errors.Wrap(err, message) }] *)
Definition wrap (message : string) (err : option error) : option error :=
  match err with
  | Some e => Some (Wrap e message)
  | None => None
  end.

Definition wrapping (message : string) : option error -> M (option error) :=
  fun err => ret (wrap message err).

(** Modelled from the spec: [notifyVolume] is declared outside manager.go;
    it "emits a notification event carrying the volume name on the event
    channel" (section 4.1). *)
Definition notifyVolume (volumeName : string) : M unit :=
  fun m =>
    (Returns tt,
     with_EventChan (EventChan m ++ [{| EventVolumeName := volumeName |}]) m).

(** The cache of managed volumes.  The description of [getManagedVolume]
    leaves two cases open: [create] true with no record, and [create] false
    with a record.  What is returned there is a parameter; each gives the
    returned values only, since an entry is constructed and registered in the
    [create] case alone. *)
Section Cache.

Variable createWithoutRecord : string -> option ManagedVolume * option error.
Variable lookupWithRecord :
  string -> VolumeInfo -> option ManagedVolume * option error.

(** Modelled from the spec: [getManagedVolume] is declared outside
    manager.go.  Section 4.2: it "returns the existing entry, or - if create
    is true - constructs and registers a new one after loading the backing
    VolumeInfo, or returns a not-found error if the volume record itself does
    not exist and create is false".  With no entry resident the record is
    looked up, and a failed lookup is returned as the collaborator error it
    is (section 7, class d). *)
Definition getManagedVolume (name : string) (create : bool)
    : M (option ManagedVolume * option error) :=
  fun m =>
    match managedVolumes m !! name with
    | Some volume => (Returns (Some volume, None), m)
    | None =>
        (do (info, err) <- call (GetVolume name) in
         match err with
         | Some e => ret (None, Some e)
         | None =>
             match info, create with
             | Some info, true =>
                 let volume := {| managedInfo := info |} in
                 fun m' =>
                   (Returns (Some volume, None),
                    with_managedVolumes (<[name := volume]> (managedVolumes m')) m')
             | None, false =>
                 ret (None, Some (Errorf "cannot find volume %v" [VString name]))
             | None, true => ret (createWithoutRecord name)
             | Some info, false => ret (lookupWithRecord name info)
             end
         end) m
    end.

End Cache.

(** ** The facade *)

Section Facade.

(** Collaborators declared outside manager.go.  [util.ConvertSize] parses a
    size string; [util.Now] reads the clock; [engineapi.GetBackup] resolves a
    backup locator; [GetRandomNode] draws a node from the registry, or fails;
    [ValidateVolume] checks a record; [NewVolume] persists a new record. *)
Variable ConvertSize : string -> Z * option error.
Variable Now : string.
Variable GetBackup : string -> error + Backup.
Variable GetRandomNode : VolumeManager -> error + Node.
Variable ValidateVolume : VolumeInfo -> option error.
Variable NewVolume : VolumeInfo -> M (option error).

(** What [getManagedVolume] returns in the cases its description leaves
    open. *)
Variable createWithoutRecord : string -> option ManagedVolume * option error.
Variable lookupWithRecord :
  string -> VolumeInfo -> option ManagedVolume * option error.

(** The operations of a [ManagedVolume], also declared outside manager.go. *)
Variable EngineClient : Type.
Variable Job : Type.
Variable mvGetEngineClient : ManagedVolume -> M (option EngineClient * option error).
Variable mvSnapshotPurge : ManagedVolume -> M (option error).
Variable mvSnapshotBackup : ManagedVolume -> string -> string -> M (option error).
Variable mvReplicaRemove : ManagedVolume -> string -> M (option error).
Variable mvListJobsInfo : ManagedVolume -> M (gmap string Job).

Definition VolumeCreate (request : VolumeCreateRequest.t) : M (option error) :=
  deferred (wrapping "unable to create volume") (
    (* validate the size *)
    check (snd (ConvertSize (VolumeCreateRequest.Size request))) in
    (* make it random node's responsibility *)
    fun m =>
    match GetRandomNode m with
    | inl err => (Returns (Some err), m)
    | inr node =>
        let size := VolumeCreateRequest.Size request in
        let resolved : error + string :=
          if decide (VolumeCreateRequest.FromBackup request ≠ "") then
            match GetBackup (VolumeCreateRequest.FromBackup request) with
            | inl err =>
                inl (Errorf "cannot get backup %v: %v"
                       [VString (VolumeCreateRequest.FromBackup request); VError err])
            | inr backup => inr (VolumeSize backup)
            end
          else inr size in
        match resolved with
        | inl err => (Returns (Some err), m)
        | inr size =>
            let info :=
              {| volumeSpec :=
                   {| OwnerID := ID node;
                      Size := size;
                      FromBackup := VolumeCreateRequest.FromBackup request;
                      NumberOfReplicas := VolumeCreateRequest.NumberOfReplicas request;
                      StaleReplicaTimeout := VolumeCreateRequest.StaleReplicaTimeout request;
                      DesireState := VolumeStateDetached;
                      RecurringJobs := [];
                      NodeID := "" |};
                 volumeStatus := {| Created := Now; State := VolumeStateCreated |};
                 metadata := {| Name := VolumeCreateRequest.Name request |} |} in
            (do err <- NewVolume info in
             check err in
             do _ <- Debugf "Created volume %v" in
             ret None) m
        end
    end).

Definition VolumeAttach (request : VolumeAttachRequest.t) : M (option error) :=
  deferred (wrapping "unable to attach volume") (
    do (volume, err) <- call (GetVolume (VolumeAttachRequest.Name request)) in
    check err in
    match volume with
    | None =>
        ret (Some (Errorf "cannot find volume %v"
                     [VString (VolumeAttachRequest.Name request)]))
    | Some volume =>
        if decide (vState volume ≠ VolumeStateDetached) then
          ret (Some (Errorf "invalid state to attach: %v" [VState (vState volume)]))
        else
          let volume := set_NodeID (VolumeAttachRequest.NodeID request) volume in
          let volume := set_OwnerID (vNodeID volume) volume in
          let volume := set_DesireState VolumeStateHealthy volume in
          do err <- call (UpdateVolume volume) in
          check err in
          do _ <- Debugf "Attaching volume %v to %v" in
          ret None
    end).

Definition VolumeDetach (request : VolumeDetachRequest.t) : M (option error) :=
  deferred (wrapping "unable to detach volume") (
    do (volume, err) <- call (GetVolume (VolumeDetachRequest.Name request)) in
    check err in
    match volume with
    | None =>
        ret (Some (Errorf "cannot find volume %v"
                     [VString (VolumeDetachRequest.Name request)]))
    | Some volume =>
        if decide (vState volume ≠ VolumeStateHealthy ∧
                   vState volume ≠ VolumeStateDegraded) then
          ret (Some (Errorf "invalid state to detach: %v" [VState (vState volume)]))
        else
          let volume := set_DesireState VolumeStateDetached volume in
          let volume := set_NodeID "" volume in
          do err <- call (UpdateVolume volume) in
          check err in
          do _ <- Debugf "Detaching volume %v from %v" in
          ret None
    end).

Definition VolumeDelete (request : VolumeDeleteRequest.t) : M (option error) :=
  deferred (wrapping "unable to delete volume") (
    do (volume, err) <- call (GetVolume (VolumeDeleteRequest.Name request)) in
    check err in
    match volume with
    | None =>
        ret (Some (Errorf "cannot find volume %v"
                     [VString (VolumeDeleteRequest.Name request)]))
    | Some volume =>
        let volume := set_DesireState VolumeStateDeleted volume in
        do err <- call (UpdateVolume volume) in
        check err in
        do _ <- Debugf "Deleting volume %v" in
        ret None
    end).

(** The loop of [VolumeSalvage] over [request.SalvageReplicaNames].  Its
    [replica, err :=] declares an [err] of its own, so the named result stays
    nil throughout; [replica.FailedAt] on a nil replica panics. *)
Fixpoint salvageReplicas (volumeName : string) (names : list string)
    (rest : M (option error)) : M (option error) :=
  match names with
  | [] => rest
  | repName :: names =>
      do (replica, err) <- call (GetVolumeReplica volumeName repName) in
      check err in
      match replica with
      | None => panic None
      | Some replica =>
          if decide (FailedAt replica = "") then
            ret (Some (Errorf "replica %v is not bad" [VString repName]))
          else
            let replica := set_FailedAt "" replica in
            do err <- call (UpdateVolumeReplica replica) in
            check err in
            salvageReplicas volumeName names rest
      end
  end.

Definition VolumeSalvage (request : VolumeSalvageRequest.t) : M (option error) :=
  deferred (wrapping "unable to salvage volume") (
    do (volume, err) <- call (GetVolume (VolumeSalvageRequest.Name request)) in
    check err in
    match volume with
    | None =>
        ret (Some (Errorf "cannot find volume %v"
                     [VString (VolumeSalvageRequest.Name request)]))
    | Some volume =>
        if decide (vState volume ≠ VolumeStateFault) then
          ret (Some (Errorf "invalid state to salvage: %v" [VState (vState volume)]))
        else
          salvageReplicas (vName volume)
            (VolumeSalvageRequest.SalvageReplicaNames request)
            (let volume := set_DesireState VolumeStateDetached volume in
             do err <- call (UpdateVolume volume) in
             check err in
             do _ <- Debugf "Salvaging volume %v" in
             ret None)
    end).

Definition VolumeRecurringUpdate (request : VolumeRecurringUpdateRequest.t)
    : M (option error) :=
  deferred (wrapping "unable to update volume recurring jobs") (
    do (volume, err) <- call (GetVolume (VolumeRecurringUpdateRequest.Name request)) in
    check err in
    match volume with
    | None =>
        ret (Some (Errorf "cannot find volume %v"
                     [VString (VolumeRecurringUpdateRequest.Name request)]))
    | Some volume =>
        let volume :=
          set_RecurringJobs (VolumeRecurringUpdateRequest.RecurringJobs request) volume in
        do err <- call (UpdateVolume volume) in
        check err in
        do _ <- Debugf "Updating volume %v recurring schedule" in
        ret None
    end).

(** The accessor [VolumeInfo] (the record type has that name here): a
    pass-through read. *)
Definition VolumeInfo_ (volumeName : string) : M (option VolumeInfo * option error) :=
  call (GetVolume volumeName).

(** [SettingsGet].  Inside the [if settings == nil] block, [err := ...]
    declares a second [err]; the re-read [settings, err = m.ds.GetSettings()]
    assigns the outer [settings] and that inner [err]; the final
    [return settings, err] reads the outer [err]. *)
Definition SettingsGet : M (option SettingsInfo * option error) :=
  do (settings, err) <- call GetSettings in
  match err with
  | Some e => ret (None, Some e)
  | None =>
      match settings with
      | Some _ => ret (settings, err)
      | None =>
          let settings := SettingsInfo_zero in
          do err' <- call (CreateSettings settings) in
          do _ <- match err' with
                  | Some _ => Warnf "fail to create settings"
                  | None => ret tt
                  end in
          do (settings, err') <- call GetSettings in
          ret (settings, err)
      end
  end.

Definition SettingsSet (settings : SettingsInfo) : M (option error) :=
  call (UpdateSettings settings).

(** The dispatch operations.  A nil [*ManagedVolume] handed back without an
    error would be dereferenced by the delegated call. *)
Definition GetEngineClient (volumeName : string)
    : M (option EngineClient * option error) :=
  do (volume, err) <-
    getManagedVolume createWithoutRecord lookupWithRecord volumeName false in
  match err, volume with
  | Some e, _ => ret (None, Some e)
  | None, Some volume => mvGetEngineClient volume
  | None, None => panic None
  end.

Definition SnapshotPurge (volumeName : string) : M (option error) :=
  do (volume, err) <-
    getManagedVolume createWithoutRecord lookupWithRecord volumeName false in
  match err, volume with
  | Some e, _ => ret (Some e)
  | None, Some volume => mvSnapshotPurge volume
  | None, None => panic None
  end.

Definition SnapshotBackup (volumeName snapshotName backupTarget : string)
    : M (option error) :=
  do (volume, err) <-
    getManagedVolume createWithoutRecord lookupWithRecord volumeName false in
  match err, volume with
  | Some e, _ => ret (Some e)
  | None, Some volume => mvSnapshotBackup volume snapshotName backupTarget
  | None, None => panic None
  end.

Definition ReplicaRemove (volumeName replicaName : string) : M (option error) :=
  do (volume, err) <-
    getManagedVolume createWithoutRecord lookupWithRecord volumeName false in
  match err, volume with
  | Some e, _ => ret (Some e)
  | None, Some volume => mvReplicaRemove volume replicaName
  | None, None => panic None
  end.

Definition JobList (volumeName : string) : M (option (gmap string Job) * option error) :=
  do (volume, err) <-
    getManagedVolume createWithoutRecord lookupWithRecord volumeName false in
  match err, volume with
  | Some e, _ => ret (None, Some e)
  | None, Some volume =>
      do jobs <- mvListJobsInfo volume in
      ret (Some jobs, None)
  | None, None => panic None
  end.

(** [VolumeCreateBySpec].  The deferred closure wraps a non-nil [err] and
    otherwise calls [m.notifyVolume(name)].  On a nil [volume] the argument
    [volume.Name] of the not-found error dereferences it: the call panics
    while [err] holds the nil error of [GetVolume]. *)
Definition VolumeCreateBySpec (name : string) : M (option error) :=
  deferred (fun err =>
      match err with
      | Some e => ret (Some (Wrap e "unable to create volume by spec"))
      | None => do _ <- notifyVolume name in ret None
      end) (
    do (volume, err) <- call (GetVolume name) in
    check err in
    match volume with
    | None => panic err
    | Some volume =>
        (* It has been created by manager API call *)
        if decide (vState volume = VolumeStateCreated) then ret None else
        if decide (vOwnerID volume = "") then
          ret (Some (Errorf "cannot create volume without target node ID: volume %v"
                       [VString (vName volume)]))
        else
          (* Validate the size *)
          check (snd (ConvertSize (vSize volume))) in
          let volume := set_Created Now volume in
          let volume := set_State VolumeStateCreated volume in
          let volume := set_Name name volume in
          let volume := set_DesireState VolumeStateDetached volume in
          check (ValidateVolume volume) in
          do err <- call (UpdateVolume volume) in
          check err in
          do _ <- Debugf "Created volume by spec %v" in
          ret None
    end).

Definition GetEngineImage : M string := fun m => (Returns (engineImage m), m).

End Facade.

(** ** Vocabulary of the statements *)

(** The replica table after the named replicas of a volume have had their
    [FailedAt] cleared, in the order of the names. *)
Definition clearedReplicas (volumeName : string) (names : list string)
    (reps : gmap (string * string) ReplicaInfo) : gmap (string * string) ReplicaInfo :=
  foldl (λ reps rep, alter (set_FailedAt "") (volumeName, rep) reps) reps names.

(** Every named replica of the volume exists and is marked failed. *)
Definition all_failed (volumeName : string) (names : list string)
    (reps : gmap (string * string) ReplicaInfo) : Prop :=
  ∀ rep, rep ∈ names → ∃ r, reps !! (volumeName, rep) = Some r ∧ FailedAt r ≠ "".

(** The not-found error of [getManagedVolume] for a volume that has no
    record. *)
Definition volume_not_found (name : string) : error :=
  Errorf "cannot find volume %v" [VString name].

(** What [NewVolume] is relied on for: a record it reports as created is the
    one stored under its name. *)
Definition persists (NewVolume : VolumeInfo -> M (option error)) : Prop :=
  ∀ info m m', NewVolume info m = (Returns None, m') →
    volumes (ds m') !! vName info = Some info.

(** ** A concrete cluster

    One faulted volume with two replicas, used to run the facade. *)

Module Example.

Definition spec0 : VolumeSpec :=
  {| OwnerID := "n0"; Size := "10Gi"; FromBackup := "";
     NumberOfReplicas := 2; StaleReplicaTimeout := 20;
     DesireState := VolumeStateDetached; RecurringJobs := []; NodeID := "" |}.

Definition volume (name : string) (state : VolumeState) : VolumeInfo :=
  {| volumeSpec := spec0;
     volumeStatus := {| Created := "2017-06-01T00:00:00Z"; State := state |};
     metadata := {| Name := name |} |}.

Definition replica (name failedAt : string) : ReplicaInfo :=
  {| ReplicaName := name; VolumeName := "v1"; FailedAt := failedAt |}.

Definition store (state : VolumeState) (r1 r2 : string)
    (schedule : list (option error)) : DataStore :=
  {| volumes := {[ "v1" := volume "v1" state ]};
     replicas := {[ ("v1", "r1") := replica "r1" r1;
                    ("v1", "r2") := replica "r2" r2 ]};
     settings := None;
     faults := schedule;
     calls := [] |}.

Definition manager (d : DataStore) : VolumeManager :=
  {| ds := d; EventChan := []; managedVolumes := ∅;
     engineImage := "rancher/longhorn-engine"; logrus := [] |}.

Definition ConvertSize (size : string) : Z * option error :=
  if decide (size = "10Gi") then (10737418240%Z, None)
  else (0%Z, Some (Failure "util: invalid size")).

Definition Now : string := "2017-06-02T00:00:00Z".

Definition GetBackup (locator : string) : error + Backup :=
  if decide (locator = "vfs:///backups?backup=b1")
  then inr {| VolumeSize := "2Gi" |}
  else inl (Failure "engineapi: cannot find backup").

Definition GetRandomNode (m : VolumeManager) : error + Node :=
  inr {| ID := "n0" |}.

Definition NoNode (m : VolumeManager) : error + Node :=
  inl (Failure "manager: no node available").

Definition ValidateVolume (v : VolumeInfo) : option error :=
  if decide (NumberOfReplicas (volumeSpec v) = 0%Z)
  then Some (Failure "manager: missing required parameter")
  else None.

Definition NewVolume (info : VolumeInfo) : M (option error) :=
  call (CreateVolume info).

Definition failedAt : string := "2017-06-01T12:00:00Z".

(** The manager over a store whose volume "v1" is in the given state, with
    healthy replicas and a datastore that answers every call. *)
Definition cluster (state : VolumeState) : VolumeManager :=
  manager (store state "" "" []).

(** "v1" is faulted: both replicas failed, or only "r1". *)
Definition bothFailed : VolumeManager :=
  manager (store VolumeStateFault failedAt failedAt []).

(** The datastore answers two calls and fails the third. *)
Definition thirdCallFails : VolumeManager :=
  manager (store VolumeStateHealthy "" ""
             [None; None; Some (Failure "datastore: connection lost")]).

Definition attachV1 : VolumeAttachRequest.t :=
  {| VolumeAttachRequest.Name := "v1"; VolumeAttachRequest.NodeID := "n1" |}.

Definition deleteV1 : VolumeDeleteRequest.t :=
  {| VolumeDeleteRequest.Name := "v1" |}.

Definition salvageV1 : VolumeSalvageRequest.t :=
  {| VolumeSalvageRequest.Name := "v1";
     VolumeSalvageRequest.SalvageReplicaNames := ["r1"; "r2"] |}.

Definition createV2 (size fromBackup : string) : VolumeCreateRequest.t :=
  {| VolumeCreateRequest.Name := "v2";
     VolumeCreateRequest.Size := size;
     VolumeCreateRequest.FromBackup := fromBackup;
     VolumeCreateRequest.NumberOfReplicas := 3;
     VolumeCreateRequest.StaleReplicaTimeout := 20 |}.

Definition backupB1 : string := "vfs:///backups?backup=b1".

(** A managed volume whose operations do nothing and succeed. *)
Definition idleSnapshotPurge (volume : ManagedVolume) : M (option error) :=
  ret None.

End Example.
(** ** Vocabulary of the further properties *)

(** The manager after a read of the volume [name] and a write of [v'] under
    that name that both went through, with [line] logged at the end. *)
Definition stored (name : string) (v' : VolumeInfo) (line : string)
    (m : VolumeManager) : VolumeManager :=
  with_logrus (logrus m ++ [line])
    (with_ds
       (with_volumes (<[name := v']> (volumes (ds m)))
          (served (CallUpdateVolume v') (served (CallGetVolume name) (ds m))))
       m).

(** What an operation on the datastore records leaves alone: the events sent,
    the cache of managed volumes and the engine image. *)
Definition frame_kept (m m' : VolumeManager) : Prop :=
  EventChan m' = EventChan m ∧
  managedVolumes m' = managedVolumes m ∧
  engineImage m' = engineImage m.

(** ** Facts about the datastore round trips *)

Lemma call_GetVolume name m :
  call (GetVolume name) m =
    (Returns match injected (ds m) with
             | Some e => (None, Some e)
             | None => (volumes (ds m) !! name, None)
             end,
     with_ds (served (CallGetVolume name) (ds m)) m).
Proof.
  unfold call, GetVolume, read, attempt. by destruct (injected (ds m)).
Qed.

Lemma call_UpdateVolume v m :
  call (UpdateVolume v) m =
    match injected (ds m) with
    | Some e => (Returns (Some e), with_ds (served (CallUpdateVolume v) (ds m)) m)
    | None =>
        match volumes (ds m) !! vName v with
        | Some _ =>
            (Returns None,
             with_ds (with_volumes (<[vName v := v]> (volumes (ds m)))
                        (served (CallUpdateVolume v) (ds m))) m)
        | None =>
            (Returns (Some (Failure "datastore: no such volume")),
             with_ds (served (CallUpdateVolume v) (ds m)) m)
        end
    end.
Proof.
  unfold call, UpdateVolume, write, attempt.
  destruct (injected (ds m)); [done|]. simpl.
  by destruct (volumes (ds m) !! vName v).
Qed.

Lemma call_GetVolumeReplica vol rep m :
  call (GetVolumeReplica vol rep) m =
    (Returns match injected (ds m) with
             | Some e => (None, Some e)
             | None => (replicas (ds m) !! (vol, rep), None)
             end,
     with_ds (served (CallGetVolumeReplica vol rep) (ds m)) m).
Proof.
  unfold call, GetVolumeReplica, read, attempt. by destruct (injected (ds m)).
Qed.

Lemma call_UpdateVolumeReplica r m :
  call (UpdateVolumeReplica r) m =
    match injected (ds m) with
    | Some e =>
        (Returns (Some e), with_ds (served (CallUpdateVolumeReplica r) (ds m)) m)
    | None =>
        match replicas (ds m) !! (VolumeName r, ReplicaName r) with
        | Some _ =>
            (Returns None,
             with_ds (with_replicas
                        (<[(VolumeName r, ReplicaName r) := r]> (replicas (ds m)))
                        (served (CallUpdateVolumeReplica r) (ds m))) m)
        | None =>
            (Returns (Some (Failure "datastore: no such replica")),
             with_ds (served (CallUpdateVolumeReplica r) (ds m)) m)
        end
    end.
Proof.
  unfold call, UpdateVolumeReplica, write, attempt.
  destruct (injected (ds m)); [done|]. simpl.
  by destruct (replicas (ds m) !! _).
Qed.

Lemma call_GetSettings m :
  call GetSettings m =
    (Returns match injected (ds m) with
             | Some e => (None, Some e)
             | None => (settings (ds m), None)
             end,
     with_ds (served CallGetSettings (ds m)) m).
Proof.
  unfold call, GetSettings, read, attempt. by destruct (injected (ds m)).
Qed.

Lemma call_CreateSettings s m :
  call (CreateSettings s) m =
    match injected (ds m) with
    | Some e => (Returns (Some e), with_ds (served (CallCreateSettings s) (ds m)) m)
    | None =>
        match settings (ds m) with
        | Some _ =>
            (Returns (Some (Failure "datastore: settings already exist")),
             with_ds (served (CallCreateSettings s) (ds m)) m)
        | None =>
            (Returns None,
             with_ds (with_settings (Some s) (served (CallCreateSettings s) (ds m))) m)
        end
    end.
Proof.
  unfold call, CreateSettings, write, attempt.
  destruct (injected (ds m)); [done|]. simpl.
  by destruct (settings (ds m)).
Qed.

Lemma injected_reliable d : faults d = [] → injected d = None.
Proof. unfold injected. by intros ->. Qed.

Lemma served_reliable c d : faults d = [] → faults (served c d) = [].
Proof. simpl. by intros ->. Qed.

Lemma injected_head d x rest : faults d = x :: rest → injected d = x.
Proof. unfold injected. intros ->. by destruct x. Qed.

Lemma faults_served c d x rest : faults d = x :: rest → faults (served c d) = rest.
Proof. simpl. by intros ->. Qed.

Lemma keyed_volume d k v : keyed d → volumes d !! k = Some v → vName v = k.
Proof. intros [H _] E. exact (H k v E). Qed.

Lemma keyed_replica d k r :
  keyed d → replicas d !! k = Some r → (VolumeName r, ReplicaName r) = k.
Proof. intros [_ H] E. exact (H k r E). Qed.

Lemma insert_as_alter {K V} `{Countable K} (f : V → V) (k : K) (x : V)
    (m : gmap K V) :
  m !! k = Some x → <[k := f x]> m = alter f k m.
Proof.
  intros E. apply map_eq. intros j. rewrite lookup_alter, lookup_insert.
  destruct (decide (k = j)) as [->|]; [by rewrite E|done].
Qed.

Lemma Example_keyed state r1 r2 schedule :
  keyed (Example.store state r1 r2 schedule).
Proof.
  split; simpl.
  - by apply map_Forall_singleton.
  - apply map_Forall_insert_2; [done|]. by apply map_Forall_singleton.
Qed.

(** ** Running the monad *)

Ltac run :=
  unfold deferred, wrapping, wrap, bind, ret, panic, Warnf, Debugf, notifyVolume.

Ltac branch :=
  match goal with
  | |- context [injected ?d] => destruct (injected d) eqn:?
  | |- context [volumes ?d !! ?k] => destruct (volumes d !! k) eqn:?
  | |- context [decide ?P] => destruct (decide P)
  end.

Lemma deferred_wrapping message body m :
  deferred (wrapping message) body m =
    match body m with
    | (Returns err, m') => (Returns (wrap message err), m')
    | (Panics err, m') => (Panics (wrap message err), m')
    end.
Proof. unfold deferred, wrapping, ret. by destruct (body m) as [[?|?] ?]. Qed.

Lemma wrap_None message err : wrap message err = None ↔ err = None.
Proof. by destruct err. Qed.

(** ** VolumeAttach *)

(** C1.  VolumeAttach returns nil exactly when the volume exists and its
    State is Detached.  On success the stored record has NodeID and OwnerID
    set to the requested node and DesireState set to Healthy, every other
    field and every other record being as before.  A missing volume gives the
    not-found error and any other State the invalid-state error, both under
    the prefix of the operation.  Whenever the call does not return nil, the
    durable records are unchanged, also when a datastore call fails. *)
Theorem VolumeAttach_succeeds_iff_detached request m :
  let name := VolumeAttachRequest.Name request in
  let nodeID := VolumeAttachRequest.NodeID request in
  let r := (VolumeAttach request m).1 in
  let m' := (VolumeAttach request m).2 in
  (r = Returns None →
     ∃ v, volumes (ds m) !! name = Some v ∧ vState v = VolumeStateDetached) ∧
  (r ≠ Returns None → durable (ds m') = durable (ds m)) ∧
  (faults (ds m) = [] → keyed (ds m) →
     (r = Returns None ↔
        ∃ v, volumes (ds m) !! name = Some v ∧ vState v = VolumeStateDetached) ∧
     match volumes (ds m) !! name with
     | None =>
         r = Returns (Some (Wrap (Errorf "cannot find volume %v" [VString name])
                              "unable to attach volume"))
     | Some v =>
         if decide (vState v = VolumeStateDetached) then
           durable (ds m') =
             (<[name :=
                  {| volumeSpec :=
                       {| OwnerID := nodeID;
                          Size := Size (volumeSpec v);
                          FromBackup := FromBackup (volumeSpec v);
                          NumberOfReplicas := NumberOfReplicas (volumeSpec v);
                          StaleReplicaTimeout := StaleReplicaTimeout (volumeSpec v);
                          DesireState := VolumeStateHealthy;
                          RecurringJobs := RecurringJobs (volumeSpec v);
                          NodeID := nodeID |};
                     volumeStatus := volumeStatus v;
                     metadata := metadata v |}]> (volumes (ds m)),
              replicas (ds m), settings (ds m))
         else
           r = Returns (Some (Wrap (Errorf "invalid state to attach: %v"
                                      [VState (vState v)])
                                "unable to attach volume"))
     end).
Proof.
  intros name nodeID r m'. subst r m'.
  unfold VolumeAttach. run. rewrite call_GetVolume. fold name nodeID.
  split; [|split].
  - destruct (injected (ds m)); [done|].
    destruct (volumes (ds m) !! name) as [v|]; [|done].
    destruct (decide (vState v ≠ _)); [done|].
    intros _. exists v. split; [done|]. by apply dec_stable.
  - destruct (injected (ds m)); [done|].
    destruct (volumes (ds m) !! name) as [v|]; [|done].
    destruct (decide (vState v ≠ _)); [done|].
    rewrite call_UpdateVolume. cbn [ds with_ds].
    repeat branch; cbn; done.
  - intros Hf Hk. rewrite (injected_reliable _ Hf).
    destruct (volumes (ds m) !! name) as [v|] eqn:E.
    2:{ split; [|done]. split; [done|]. by intros (v & ? & _). }
    pose proof (keyed_volume _ _ _ Hk E) as Hn.
    destruct (decide (vState v ≠ _)) as [Hs|Hs].
    { rewrite decide_False by done. split; [|done].
      split; [done|]. intros (v' & [= <-] & ?). done. }
    apply dec_stable in Hs. rewrite decide_True by done.
    rewrite call_UpdateVolume. cbn [ds with_ds].
    rewrite injected_reliable by (by apply served_reliable).
    change (volumes (served _ (ds m))) with (volumes (ds m)).
    change (vName (set_DesireState _ _)) with (vName v). rewrite Hn, E.
    split; [|done]. split; [|done]. intros _. by exists v.
Qed.

Lemma VolumeAttach_succeeds_iff_detached_witness :
  (VolumeAttach Example.attachV1 (Example.cluster VolumeStateDetached)).1
  = Returns None.
Proof.
  destruct (VolumeAttach_succeeds_iff_detached
              Example.attachV1 (Example.cluster VolumeStateDetached))
    as (_ & _ & H).
  destruct (H eq_refl (Example_keyed _ _ _ _)) as [[_ Hiff] _].
  apply Hiff. eexists. split; reflexivity.
Defined.

(** ** VolumeDelete *)

(** C10.  VolumeDelete on a name with no record fails - with the not-found
    error under the operation's prefix when the read goes through - and its
    only datastore call is that read.  For an existing volume in any State it
    stores the record with DesireState set to Deleted and every other field
    as it was, all other records being untouched.  Whenever the call does not
    return nil the durable records are unchanged. *)
Theorem VolumeDelete_sets_only_DesireState request m :
  let name := VolumeDeleteRequest.Name request in
  let r := (VolumeDelete request m).1 in
  let m' := (VolumeDelete request m).2 in
  (volumes (ds m) !! name = None →
     r ≠ Returns None ∧
     durable (ds m') = durable (ds m) ∧
     calls (ds m') = (calls (ds m) ++ [CallGetVolume name])%list ∧
     (injected (ds m) = None →
        r = Returns (Some (Wrap (Errorf "cannot find volume %v" [VString name])
                             "unable to delete volume")))) ∧
  (∀ v, volumes (ds m) !! name = Some v → vName v = name →
     faults (ds m) = [] →
     r = Returns None ∧
     durable (ds m') =
       (<[name :=
            {| volumeSpec :=
                 {| OwnerID := OwnerID (volumeSpec v);
                    Size := Size (volumeSpec v);
                    FromBackup := FromBackup (volumeSpec v);
                    NumberOfReplicas := NumberOfReplicas (volumeSpec v);
                    StaleReplicaTimeout := StaleReplicaTimeout (volumeSpec v);
                    DesireState := VolumeStateDeleted;
                    RecurringJobs := RecurringJobs (volumeSpec v);
                    NodeID := NodeID (volumeSpec v) |};
               volumeStatus := volumeStatus v;
               metadata := metadata v |}]> (volumes (ds m)),
        replicas (ds m), settings (ds m))) ∧
  (r ≠ Returns None → durable (ds m') = durable (ds m)).
Proof.
  intros name r m'. subst r m'.
  unfold VolumeDelete. run. rewrite call_GetVolume. fold name.
  split; [|split].
  - intros ->. by destruct (injected (ds m)).
  - intros v E Hn Hf. rewrite (injected_reliable _ Hf), E.
    rewrite call_UpdateVolume. cbn [ds with_ds].
    rewrite injected_reliable by (by apply served_reliable).
    change (volumes (served _ (ds m))) with (volumes (ds m)).
    change (vName (set_DesireState _ _)) with (vName v). by rewrite Hn, E.
  - destruct (injected (ds m)); [done|].
    destruct (volumes (ds m) !! name) as [v|]; [|done].
    rewrite call_UpdateVolume. cbn [ds with_ds].
    repeat branch; cbn; done.
Qed.

Lemma VolumeDelete_sets_only_DesireState_witness :
  (VolumeDelete Example.deleteV1 (Example.cluster VolumeStateHealthy)).1
  = Returns None.
Proof.
  destruct (VolumeDelete_sets_only_DesireState
              Example.deleteV1 (Example.cluster VolumeStateHealthy))
    as (_ & H & _).
  exact (proj1 (H (Example.volume "v1" VolumeStateHealthy)
                  eq_refl eq_refl eq_refl)).
Defined.

(** ** VolumeSalvage *)

Lemma salvageReplicas_app vol l1 l2 rest m :
  salvageReplicas vol (l1 ++ l2) rest m =
    salvageReplicas vol l1 (salvageReplicas vol l2 rest) m.
Proof.
  revert m. induction l1 as [|rep l1 IH]; intros m; [done|].
  simpl. unfold bind. rewrite call_GetVolumeReplica.
  destruct (injected (ds m)); [done|].
  destruct (replicas (ds m) !! (vol, rep)) as [r|]; [|done].
  destruct (decide (FailedAt r = "")); [done|].
  destruct (call _ _) as [[[e|]|] m1]; try done.
Qed.


Lemma salvageReplicas_all_failed vol names rest :
  ∀ m, faults (ds m) = [] → keyed (ds m) → NoDup names →
    all_failed vol names (replicas (ds m)) →
    ∃ d1, salvageReplicas vol names rest m = rest (with_ds d1 m) ∧
          faults d1 = [] ∧ keyed d1 ∧
          volumes d1 = volumes (ds m) ∧ settings d1 = settings (ds m) ∧
          replicas d1 = clearedReplicas vol names (replicas (ds m)).
Proof.
  induction names as [|rep names IH]; intros m Hf Hk Hnd Hall.
  { exists (ds m). by destruct m. }
  apply NoDup_cons in Hnd as [Hni Hnd].
  destruct (Hall rep) as (r & E & Hbad); [by left|].
  pose proof (keyed_replica _ _ _ Hk E) as Hkey.
  simpl. unfold bind. rewrite call_GetVolumeReplica.
  rewrite (injected_reliable _ Hf), E.
  rewrite decide_False by done.
  rewrite call_UpdateVolumeReplica. cbn [ds with_ds].
  rewrite injected_reliable by (by apply served_reliable).
  change (replicas (served _ (ds m))) with (replicas (ds m)).
  change (VolumeName (set_FailedAt _ r), ReplicaName (set_FailedAt _ r))
    with (VolumeName r, ReplicaName r).
  rewrite Hkey, E.
  edestruct (IH (with_ds (with_replicas (<[(vol, rep) := set_FailedAt "" r]> (replicas (ds m)))
              (served (CallUpdateVolumeReplica (set_FailedAt "" r))
                 (served (CallGetVolumeReplica vol rep) (ds m)))) m))
    as (d1 & Hrun & Hf1 & Hk1 & Hv1 & Hs1 & Hr1).
  - simpl. by rewrite Hf.
  - destruct Hk as [Hkv Hkr]. split; simpl; [done|].
    apply map_Forall_insert_2; [by rewrite <- Hkey|done].
  - done.
  - intros rep' Hin. destruct (Hall rep') as (r' & E' & Hbad'); [by right|].
    exists r'. split; [|done]. simpl. rewrite lookup_insert_ne; [done|].
    intros [= ->]. done.
  - exists d1. split; [exact Hrun|]. repeat split; try done.
    + apply Hk1.
    + apply Hk1.
    + rewrite Hr1. simpl. unfold clearedReplicas. simpl.
      by rewrite (insert_as_alter _ _ _ _ E).
Qed.

Lemma lookup_clearedReplicas vol names reps k :
  clearedReplicas vol names reps !! k =
    if decide (k ∈ (λ rep, (vol, rep)) <$> names)
    then set_FailedAt "" <$> reps !! k
    else reps !! k.
Proof.
  unfold clearedReplicas. revert reps.
  induction names as [|rep names IH]; intros reps.
  { rewrite decide_False; [done|]. by intros ?%elem_of_nil. }
  rewrite fmap_cons. cbn [foldl]. rewrite IH, lookup_alter.
  destruct (decide (k ∈ (λ rep, (vol, rep)) <$> names)) as [Hin|Hni],
           (decide ((vol, rep) = k)) as [Heq|Hne],
           (decide (k ∈ (vol, rep) :: ((λ rep, (vol, rep)) <$> names))) as [Hin'|Hni'];
    try done.
  all: try (exfalso; apply Hni', elem_of_cons; (by left) || (by right)).
  all: try (apply elem_of_cons in Hin' as [?|?]; done).
  all: subst; by destruct (reps !! _).
Qed.


Lemma Example_all_failed :
  all_failed "v1" ["r1"; "r2"] (replicas (ds Example.bothFailed)).
Proof.
  intros rep [->|[->|[]%elem_of_nil]%elem_of_cons]%elem_of_cons;
    eexists; (split; [reflexivity|done]).
Qed.



(** ** VolumeCreateBySpec *)

Section CreateBySpec.

Variable ConvertSize : string -> Z * option error.
Variable Now : string.
Variable ValidateVolume : VolumeInfo -> option error.

Local Abbreviation VolumeCreateBySpec := (VolumeCreateBySpec ConvertSize Now ValidateVolume).

(** One event for a nil result, none for an error; the call panics only on a
    volume that is not there. *)
Lemma VolumeCreateBySpec_events name m :
  match (VolumeCreateBySpec name m).1 with
  | Returns None =>
      EventChan (VolumeCreateBySpec name m).2 =
        (EventChan m ++ [{| EventVolumeName := name |}])%list
  | Returns (Some _) => EventChan (VolumeCreateBySpec name m).2 = EventChan m
  | Panics _ => volumes (ds m) !! name = None
  end.
Proof.
  unfold VolumeCreateBySpec. run. rewrite !call_GetVolume.
  destruct (injected (ds m)); [done|].
  destruct (volumes (ds m) !! name) as [v|]; [|done].
  destruct (decide (vState v = _)); [done|].
  destruct (decide (vOwnerID v = _)); [done|].
  destruct (ConvertSize (vSize v)).2; [done|].
  destruct (ValidateVolume _); [done|].
  rewrite !call_UpdateVolume. cbn [ds with_ds].
  destruct (injected _); [done|].
  destruct (volumes _ !! _); done.
Qed.

(** On a name with no record the call panics, and the deferred closure,
    which finds [err] nil, has sent the event by then. *)
Lemma VolumeCreateBySpec_nil_volume name m :
  injected (ds m) = None → volumes (ds m) !! name = None →
  VolumeCreateBySpec name m =
    (Panics None,
     with_EventChan (EventChan m ++ [{| EventVolumeName := name |}])
       (with_ds (served (CallGetVolume name) (ds m)) m)).
Proof.
  intros Hi E. unfold VolumeCreateBySpec. run. rewrite !call_GetVolume.
  by rewrite Hi, E.
Qed.

(** C3, as amended.  VolumeCreateBySpec on a volume whose State is already
    Created returns nil and leaves the durable records unchanged - its only
    datastore call is the read - and it sends one notification event carrying
    the volume name, each time it is called. *)
Theorem VolumeCreateBySpec_created_notifies_each_time name m v :
  volumes (ds m) !! name = Some v → vState v = VolumeStateCreated →
  faults (ds m) = [] →
  let first := VolumeCreateBySpec name m in
  let second := VolumeCreateBySpec name first.2 in
  first.1 = Returns None ∧ second.1 = Returns None ∧
  durable (ds first.2) = durable (ds m) ∧
  durable (ds second.2) = durable (ds m) ∧
  calls (ds second.2) =
    (calls (ds m) ++ [CallGetVolume name; CallGetVolume name])%list ∧
  EventChan first.2 = (EventChan m ++ [{| EventVolumeName := name |}])%list ∧
  EventChan second.2 =
    (EventChan m ++ [{| EventVolumeName := name |};
                     {| EventVolumeName := name |}])%list.
Proof.
  intros E Hs Hf first second.
  assert (H1 : first =
    (Returns None,
     with_EventChan (EventChan m ++ [{| EventVolumeName := name |}])
       (with_ds (served (CallGetVolume name) (ds m)) m))).
  { subst first. unfold VolumeCreateBySpec. run. rewrite !call_GetVolume.
    rewrite (injected_reliable _ Hf), E. by rewrite decide_True. }
  subst second. rewrite H1. cbn [fst snd].
  unfold VolumeCreateBySpec. run. rewrite !call_GetVolume. cbn.
  rewrite injected_reliable by (cbn; by rewrite Hf).
  rewrite E, decide_True by done. cbn. rewrite ?Hf.
  repeat split; try done; by rewrite <- !app_assoc.
Qed.

End CreateBySpec.

Lemma VolumeCreateBySpec_created_notifies_each_time_witness :
  (VolumeCreateBySpec Example.ConvertSize Example.Now Example.ValidateVolume
     "v1" (Example.cluster VolumeStateCreated)).1 = Returns None.
Proof.
  exact (proj1 (VolumeCreateBySpec_created_notifies_each_time
                  Example.ConvertSize Example.Now Example.ValidateVolume
                  "v1" (Example.cluster VolumeStateCreated)
                  (Example.volume "v1" VolumeStateCreated)
                  eq_refl eq_refl eq_refl)).
Defined.

(** C3, as stated, fails: the call on a volume already Created sends an
    event. *)
Lemma VolumeCreateBySpec_created_sends_event :
  vState <$> volumes (ds (Example.cluster VolumeStateCreated)) !! "v1"
    = Some VolumeStateCreated ∧
  EventChan (Example.cluster VolumeStateCreated) = [] ∧
  VolumeCreateBySpec Example.ConvertSize Example.Now Example.ValidateVolume
    "v1" (Example.cluster VolumeStateCreated)
  = (Returns None,
     with_EventChan [{| EventVolumeName := "v1" |}]
       (with_ds (served (CallGetVolume "v1")
                   (ds (Example.cluster VolumeStateCreated)))
          (Example.cluster VolumeStateCreated))).
Proof. repeat split; by vm_compute. Qed.

(** C4.  On a name with no record the call does not succeed, and one event
    has been sent all the same: the panic on the nil volume unwinds through
    the deferred closure while [err] is nil. *)
Theorem VolumeCreateBySpec_missing_volume_sends_event :
  volumes (ds (Example.cluster VolumeStateHealthy)) !! "v2" = None ∧
  (VolumeCreateBySpec Example.ConvertSize Example.Now Example.ValidateVolume
     "v2" (Example.cluster VolumeStateHealthy)).1 = Panics None ∧
  EventChan (Example.cluster VolumeStateHealthy) = [] ∧
  EventChan
    (VolumeCreateBySpec Example.ConvertSize Example.Now Example.ValidateVolume
       "v2" (Example.cluster VolumeStateHealthy)).2
  = [{| EventVolumeName := "v2" |}].
Proof. repeat split; by vm_compute. Qed.

(** ** A volume that does not exist *)

(** The operations that check [volume == nil] before using the record report
    a missing volume as an error. *)
Lemma missing_volume_is_reported name nodeID names jobs m :
  injected (ds m) = None → volumes (ds m) !! name = None →
  let missing := Errorf "cannot find volume %v" [VString name] in
  (VolumeAttach {| VolumeAttachRequest.Name := name;
                   VolumeAttachRequest.NodeID := nodeID |} m).1
    = Returns (Some (Wrap missing "unable to attach volume")) ∧
  (VolumeDetach {| VolumeDetachRequest.Name := name |} m).1
    = Returns (Some (Wrap missing "unable to detach volume")) ∧
  (VolumeDelete {| VolumeDeleteRequest.Name := name |} m).1
    = Returns (Some (Wrap missing "unable to delete volume")) ∧
  (VolumeSalvage {| VolumeSalvageRequest.Name := name;
                    VolumeSalvageRequest.SalvageReplicaNames := names |} m).1
    = Returns (Some (Wrap missing "unable to salvage volume")) ∧
  (VolumeRecurringUpdate
     {| VolumeRecurringUpdateRequest.Name := name;
        VolumeRecurringUpdateRequest.RecurringJobs := jobs |} m).1
    = Returns (Some (Wrap missing "unable to update volume recurring jobs")).
Proof.
  intros Hi E missing.
  unfold VolumeAttach, VolumeDetach, VolumeDelete, VolumeSalvage,
    VolumeRecurringUpdate.
  rewrite !deferred_wrapping. unfold bind, ret. rewrite !call_GetVolume.
  cbn [VolumeAttachRequest.Name VolumeDetachRequest.Name
       VolumeDeleteRequest.Name VolumeSalvageRequest.Name
       VolumeRecurringUpdateRequest.Name].
  by rewrite Hi, E.
Qed.

(** C8.  VolumeCreateBySpec on the name of a volume that does not exist
    panics on the nil record, where VolumeAttach on the same name returns the
    not-found error. *)
Theorem VolumeCreateBySpec_missing_volume_panics :
  volumes (ds (Example.cluster VolumeStateHealthy)) !! "v2" = None ∧
  (VolumeCreateBySpec Example.ConvertSize Example.Now Example.ValidateVolume
     "v2" (Example.cluster VolumeStateHealthy)).1 = Panics None ∧
  (VolumeAttach {| VolumeAttachRequest.Name := "v2";
                   VolumeAttachRequest.NodeID := "n1" |}
     (Example.cluster VolumeStateHealthy)).1
  = Returns (Some (Wrap (Errorf "cannot find volume %v" [VString "v2"])
                     "unable to attach volume")).
Proof. repeat split; by vm_compute. Qed.

(** The loop of VolumeSalvage dereferences a replica that does not exist. *)
Lemma VolumeSalvage_missing_replica_panics :
  (VolumeSalvage {| VolumeSalvageRequest.Name := "v1";
                    VolumeSalvageRequest.SalvageReplicaNames := ["r3"] |}
     Example.bothFailed).1 = Panics None.
Proof. by vm_compute. Qed.

(** ** SettingsGet *)

(** A settings record that exists is returned as it is; nothing is created. *)
Lemma SettingsGet_existing m s :
  injected (ds m) = None → settings (ds m) = Some s →
  SettingsGet m = (Returns (Some s, None), with_ds (served CallGetSettings (ds m)) m).
Proof.
  intros Hi E. unfold SettingsGet. run. rewrite call_GetSettings.
  by rewrite Hi, E.
Qed.

(** On an empty store the default record is created once and read back; the
    next call finds it and creates nothing. *)
Lemma SettingsGet_creates_once m :
  faults (ds m) = [] → settings (ds m) = None →
  let first := SettingsGet m in
  let second := SettingsGet first.2 in
  first.1 = Returns (Some SettingsInfo_zero, None) ∧
  settings (ds first.2) = Some SettingsInfo_zero ∧
  calls (ds first.2) =
    (calls (ds m) ++ [CallGetSettings; CallCreateSettings SettingsInfo_zero;
                      CallGetSettings])%list ∧
  second.1 = Returns (Some SettingsInfo_zero, None) ∧
  settings (ds second.2) = Some SettingsInfo_zero ∧
  calls (ds second.2) = (calls (ds first.2) ++ [CallGetSettings])%list.
Proof.
  intros Hf E first second.
  assert (H1 : first =
    (Returns (Some SettingsInfo_zero, None),
     with_ds (served CallGetSettings
                (with_settings (Some SettingsInfo_zero)
                   (served (CallCreateSettings SettingsInfo_zero)
                      (served CallGetSettings (ds m))))) m)).
  { subst first. unfold SettingsGet. run. rewrite call_GetSettings.
    rewrite (injected_reliable _ Hf), E. rewrite call_CreateSettings.
    cbn [ds with_ds]. rewrite injected_reliable by (cbn; by rewrite Hf).
    cbn [settings served with_faults logged]. rewrite E.
    rewrite call_GetSettings. cbn [ds with_ds].
    rewrite injected_reliable by (cbn; by rewrite Hf). done. }
  subst second. rewrite H1. cbn [fst snd].
  rewrite (SettingsGet_existing _ SettingsInfo_zero); [|apply injected_reliable; cbn; by rewrite Hf|done].
  cbn. repeat split; try done. by rewrite <- !app_assoc.
Qed.

(** A failed creation is logged and the call goes on to the re-read. *)
Lemma SettingsGet_creation_failure m e rest :
  settings (ds m) = None → faults (ds m) = None :: Some e :: rest →
  injected (with_faults rest (ds m)) = None →
  (SettingsGet m).1 = Returns (None, None) ∧
  logrus (SettingsGet m).2 = (logrus m ++ ["fail to create settings"])%list ∧
  durable (ds (SettingsGet m).2) = durable (ds m).
Proof.
  intros E Hf Hi. unfold SettingsGet. run. rewrite !call_GetSettings.
  rewrite (injected_head _ _ _ Hf), E.
  pose proof (faults_served CallGetSettings _ _ _ Hf) as Hf1.
  rewrite !call_CreateSettings. cbn [ds with_ds].
  rewrite (injected_head _ _ _ Hf1). unfold Debugf. cbv beta iota.
  rewrite !call_GetSettings. cbn [ds with_ds logrus with_logrus].
  replace (injected (served _ (served _ (ds m)))) with (@None error).
  2:{ symmetry. revert Hi. unfold injected. cbn. by rewrite Hf. }
  cbn. by rewrite E.
Qed.

(** The error of the re-read does not reach the caller. *)
Lemma SettingsGet_reread_error m c e rest :
  settings (ds m) = None → faults (ds m) = None :: c :: Some e :: rest →
  (SettingsGet m).1 = Returns (None, None).
Proof.
  intros E Hf. unfold SettingsGet. run. rewrite !call_GetSettings.
  rewrite (injected_head _ _ _ Hf), E.
  pose proof (faults_served CallGetSettings _ _ _ Hf) as Hf1.
  rewrite !call_CreateSettings. cbn [ds with_ds].
  rewrite (injected_head _ _ _ Hf1).
  pose proof (faults_served (CallCreateSettings SettingsInfo_zero) _ _ _ Hf1) as Hf2.
  destruct c as [e'|].
  - unfold Debugf. cbv beta iota. rewrite call_GetSettings. cbn [ds with_ds logrus with_logrus].
    by rewrite (injected_head _ _ _ Hf2).
  - cbn [settings served with_faults logged]. rewrite E.
    rewrite call_GetSettings. cbn [ds with_ds].
    replace (injected _) with (Some e); [done|].
    symmetry. apply (injected_head _ _ rest). cbn. by rewrite Hf.
Qed.

(** C7.  The store is empty and the datastore fails the third call.  After
    the first read and the creation, the re-read returns an error; SettingsGet
    has created the default record, has made that re-read, and returns
    neither a record nor an error. *)
Theorem SettingsGet_drops_reread_error :
  settings (ds Example.thirdCallFails) = None ∧
  (call GetSettings
     ((do _ <- call GetSettings in call (CreateSettings SettingsInfo_zero))
        Example.thirdCallFails).2).1
    = Returns (None, Some (Failure "datastore: connection lost")) ∧
  (SettingsGet Example.thirdCallFails).1 = Returns (None, None) ∧
  settings (ds (SettingsGet Example.thirdCallFails).2)
    = Some SettingsInfo_zero ∧
  calls (ds (SettingsGet Example.thirdCallFails).2)
    = [CallGetSettings; CallCreateSettings SettingsInfo_zero; CallGetSettings].
Proof. repeat split; by vm_compute. Qed.

(** ** The dispatch operations *)

Section Dispatch.

Variable createWithoutRecord : string -> option ManagedVolume * option error.
Variable lookupWithRecord :
  string -> VolumeInfo -> option ManagedVolume * option error.
Variable EngineClient : Type.
Variable Job : Type.
Variable mvGetEngineClient : ManagedVolume -> M (option EngineClient * option error).
Variable mvSnapshotPurge : ManagedVolume -> M (option error).
Variable mvSnapshotBackup : ManagedVolume -> string -> string -> M (option error).
Variable mvReplicaRemove : ManagedVolume -> string -> M (option error).
Variable mvListJobsInfo : ManagedVolume -> M (gmap string Job).

Local Abbreviation lookup name :=
  (getManagedVolume createWithoutRecord lookupWithRecord name false).

(** The lookup the dispatch operations make, with [create] false: a resident
    entry is returned with the manager as it was; otherwise the record is
    read, and the answer is the read's error, the not-found error when there
    is no record, and what [lookupWithRecord] gives when there is one. *)
Lemma getManagedVolume_lookup name m :
  lookup name m =
    match managedVolumes m !! name with
    | Some volume => (Returns (Some volume, None), m)
    | None =>
        (Returns match injected (ds m) with
                 | Some e => (None, Some e)
                 | None =>
                     match volumes (ds m) !! name with
                     | None => (None, Some (volume_not_found name))
                     | Some info => lookupWithRecord name info
                     end
                 end,
         with_ds (served (CallGetVolume name) (ds m)) m)
    end.
Proof.
  unfold getManagedVolume. destruct (managedVolumes m !! name); [done|].
  unfold bind, ret. rewrite call_GetVolume.
  destruct (injected (ds m)); [done|].
  by destruct (volumes (ds m) !! name).
Qed.

(** C5, as amended.  Each dispatch operation resolves the volume through
    [getManagedVolume] with create false and is that lookup followed by the
    delegated call: an error of the lookup is returned as it is, a
    ManagedVolume it hands back is delegated to.  The lookup registers no
    ManagedVolume and writes nothing: the cache and the durable records are
    as before, whatever the lookup answers where its description is open.  A
    resident ManagedVolume is returned with the manager untouched; with none
    resident the one datastore call is the lookup's read of the record, and a
    volume without a record gives the not-found error. *)
Theorem dispatch_looks_up_without_creating name snapshotName backupTarget replicaName m :
  managedVolumes (lookup name m).2 = managedVolumes m ∧
  durable (ds (lookup name m).2) = durable (ds m) ∧
  lookup name m =
    match managedVolumes m !! name with
    | Some volume => (Returns (Some volume, None), m)
    | None =>
        (Returns match injected (ds m) with
                 | Some e => (None, Some e)
                 | None =>
                     match volumes (ds m) !! name with
                     | None => (None, Some (volume_not_found name))
                     | Some info => lookupWithRecord name info
                     end
                 end,
         with_ds (served (CallGetVolume name) (ds m)) m)
    end ∧
  match (lookup name m).1 with
  | Returns (_, Some err) =>
      GetEngineClient createWithoutRecord lookupWithRecord
        EngineClient mvGetEngineClient name m
        = (Returns (None, Some err), (lookup name m).2) ∧
      SnapshotPurge createWithoutRecord lookupWithRecord mvSnapshotPurge name m
        = (Returns (Some err), (lookup name m).2) ∧
      SnapshotBackup createWithoutRecord lookupWithRecord mvSnapshotBackup
        name snapshotName backupTarget m
        = (Returns (Some err), (lookup name m).2) ∧
      ReplicaRemove createWithoutRecord lookupWithRecord mvReplicaRemove
        name replicaName m
        = (Returns (Some err), (lookup name m).2) ∧
      JobList createWithoutRecord lookupWithRecord Job mvListJobsInfo name m
        = (Returns (None, Some err), (lookup name m).2)
  | Returns (Some volume, None) =>
      GetEngineClient createWithoutRecord lookupWithRecord
        EngineClient mvGetEngineClient name m
        = mvGetEngineClient volume (lookup name m).2 ∧
      SnapshotPurge createWithoutRecord lookupWithRecord mvSnapshotPurge name m
        = mvSnapshotPurge volume (lookup name m).2 ∧
      SnapshotBackup createWithoutRecord lookupWithRecord mvSnapshotBackup
        name snapshotName backupTarget m
        = mvSnapshotBackup volume snapshotName backupTarget (lookup name m).2 ∧
      ReplicaRemove createWithoutRecord lookupWithRecord mvReplicaRemove
        name replicaName m
        = mvReplicaRemove volume replicaName (lookup name m).2 ∧
      JobList createWithoutRecord lookupWithRecord Job mvListJobsInfo name m
        = match mvListJobsInfo volume (lookup name m).2 with
          | (Returns jobs, m') => (Returns (Some jobs, None), m')
          | (Panics err, m') => (Panics err, m')
          end
  | Returns (None, None) =>
      GetEngineClient createWithoutRecord lookupWithRecord
        EngineClient mvGetEngineClient name m
        = (Panics None, (lookup name m).2) ∧
      SnapshotPurge createWithoutRecord lookupWithRecord mvSnapshotPurge name m
        = (Panics None, (lookup name m).2) ∧
      SnapshotBackup createWithoutRecord lookupWithRecord mvSnapshotBackup
        name snapshotName backupTarget m
        = (Panics None, (lookup name m).2) ∧
      ReplicaRemove createWithoutRecord lookupWithRecord mvReplicaRemove
        name replicaName m
        = (Panics None, (lookup name m).2) ∧
      JobList createWithoutRecord lookupWithRecord Job mvListJobsInfo name m
        = (Panics None, (lookup name m).2)
  | Panics _ => False
  end.
Proof.
  unfold GetEngineClient, SnapshotPurge, SnapshotBackup, ReplicaRemove, JobList.
  unfold bind. rewrite !getManagedVolume_lookup.
  destruct (managedVolumes m !! name) as [volume|]; [done|].
  cbn [fst snd]. split; [done|]. split; [done|]. split; [done|].
  destruct (injected (ds m)); [done|].
  destruct (volumes (ds m) !! name) as [info|]; [|done].
  by destruct (lookupWithRecord name info) as [[volume|] [err|]].
Qed.

End Dispatch.

(** C5, as stated, fails.  "v1" has a record and no resident ManagedVolume:
    after SnapshotPurge, whatever the lookup answers where its description is
    open, no ManagedVolume is registered for it.  "v2" has no record:
    SnapshotPurge returns the not-found error and registers none. *)
Lemma SnapshotPurge_creates_no_managed_volume :
  vName <$> volumes (ds (Example.cluster VolumeStateHealthy)) !! "v1"
    = Some "v1" ∧
  managedVolumes (Example.cluster VolumeStateHealthy) !! "v1" = None ∧
  (∀ createWithoutRecord lookupWithRecord,
     managedVolumes
       (SnapshotPurge createWithoutRecord lookupWithRecord
          Example.idleSnapshotPurge "v1"
          (Example.cluster VolumeStateHealthy)).2 !! "v1" = None) ∧
  volumes (ds (Example.cluster VolumeStateHealthy)) !! "v2" = None ∧
  (∀ createWithoutRecord lookupWithRecord,
     (SnapshotPurge createWithoutRecord lookupWithRecord
        Example.idleSnapshotPurge "v2"
        (Example.cluster VolumeStateHealthy)).1
       = Returns (Some (volume_not_found "v2")) ∧
     managedVolumes
       (SnapshotPurge createWithoutRecord lookupWithRecord
          Example.idleSnapshotPurge "v2"
          (Example.cluster VolumeStateHealthy)).2 !! "v2" = None).
Proof.
  split; [done|]. split; [done|]. split; [|split; [done|]].
  - intros createWithoutRecord lookupWithRecord.
    unfold SnapshotPurge, bind. rewrite getManagedVolume_lookup.
    change (managedVolumes (Example.cluster VolumeStateHealthy) !! "v1")
      with (@None ManagedVolume).
    change (injected (ds (Example.cluster VolumeStateHealthy)))
      with (@None error).
    change (volumes (ds (Example.cluster VolumeStateHealthy)) !! "v1")
      with (Some (Example.volume "v1" VolumeStateHealthy)).
    by destruct (lookupWithRecord "v1" (Example.volume "v1" VolumeStateHealthy))
      as [[volume|] [err|]].
  - intros createWithoutRecord lookupWithRecord.
    unfold SnapshotPurge, bind. rewrite getManagedVolume_lookup.
    change (managedVolumes (Example.cluster VolumeStateHealthy) !! "v2")
      with (@None ManagedVolume).
    change (injected (ds (Example.cluster VolumeStateHealthy)))
      with (@None error).
    change (volumes (ds (Example.cluster VolumeStateHealthy)) !! "v2")
      with (@None VolumeInfo).
    done.
Qed.

(** ** VolumeCreate *)

Section Create.

Variable ConvertSize : string -> Z * option error.
Variable Now : string.
Variable GetBackup : string -> error + Backup.
Variable GetRandomNode : VolumeManager -> error + Node.
Variable NewVolume : VolumeInfo -> M (option error).

Local Abbreviation VolumeCreate :=
  (VolumeCreate ConvertSize Now GetBackup GetRandomNode NewVolume).

(** C6.  When VolumeCreate succeeds on a request with a non-empty
    FromBackup, the record stored under the requested name has the Size the
    backup records, whatever Size the request gave, with State Created,
    DesireState Detached and OwnerID the node the registry handed out. *)
Theorem VolumeCreate_from_backup_takes_backup_size request m :
  persists NewVolume →
  VolumeCreateRequest.FromBackup request ≠ "" →
  (VolumeCreate request m).1 = Returns None →
  ∃ node backup,
    GetRandomNode m = inr node ∧
    GetBackup (VolumeCreateRequest.FromBackup request) = inr backup ∧
    volumes (ds (VolumeCreate request m).2) !! VolumeCreateRequest.Name request =
      Some {| volumeSpec :=
                {| OwnerID := ID node;
                   Size := VolumeSize backup;
                   FromBackup := VolumeCreateRequest.FromBackup request;
                   NumberOfReplicas := VolumeCreateRequest.NumberOfReplicas request;
                   StaleReplicaTimeout := VolumeCreateRequest.StaleReplicaTimeout request;
                   DesireState := VolumeStateDetached;
                   RecurringJobs := [];
                   NodeID := "" |};
              volumeStatus := {| Created := Now; State := VolumeStateCreated |};
              metadata := {| Name := VolumeCreateRequest.Name request |} |}.
Proof.
  intros Hp Hb. unfold VolumeCreate. rewrite !deferred_wrapping.
  destruct (ConvertSize _).2; [done|].
  destruct (GetRandomNode m) as [e|node]; [done|].
  rewrite decide_True by done.
  destruct (GetBackup _) as [e|backup]; [done|].
  unfold bind, ret, Debugf.
  match goal with
  | |- context [NewVolume ?i m] =>
      pose proof (Hp i m) as Hp'; destruct (NewVolume i m) as [[[e|]|e] m1]
  end; try done.
  intros _. exists node, backup. repeat split. cbn. by apply Hp'.
Qed.

(** C9.  When the requested size does not parse, when the registry has no
    node to give, or when the backup lookup fails, VolumeCreate returns an
    error under its prefix and the manager's state is exactly as before:
    [NewVolume] is not reached and no record is written. *)
Theorem VolumeCreate_precondition_failures_write_nothing request m :
  let size := VolumeCreateRequest.Size request in
  let fromBackup := VolumeCreateRequest.FromBackup request in
  (∀ e, (ConvertSize size).2 = Some e →
     VolumeCreate request m =
       (Returns (Some (Wrap e "unable to create volume")), m)) ∧
  (∀ e, (ConvertSize size).2 = None → GetRandomNode m = inl e →
     VolumeCreate request m =
       (Returns (Some (Wrap e "unable to create volume")), m)) ∧
  (∀ e node, (ConvertSize size).2 = None → GetRandomNode m = inr node →
     fromBackup ≠ "" → GetBackup fromBackup = inl e →
     VolumeCreate request m =
       (Returns (Some (Wrap (Errorf "cannot get backup %v: %v"
                               [VString fromBackup; VError e])
                         "unable to create volume")), m)) ∧
  ((ConvertSize size).2 ≠ None ∨
   (∃ e, GetRandomNode m = inl e) ∨
   (fromBackup ≠ "" ∧ ∃ e, GetBackup fromBackup = inl e) →
   (∃ e, (VolumeCreate request m).1 = Returns (Some e)) ∧
   (VolumeCreate request m).2 = m).
Proof.
  intros size fromBackup. unfold VolumeCreate. rewrite !deferred_wrapping.
  fold size fromBackup.
  split; [|split; [|split]].
  - by intros e ->.
  - by intros e -> ->.
  - intros e node -> -> Hb ->. by rewrite decide_True.
  - intros H. destruct (ConvertSize size).2; [by split; [eexists|]|].
    destruct (GetRandomNode m); [by split; [eexists|]|].
    destruct H as [?|[[? ?]|[Hb [e ->]]]]; try done.
    rewrite decide_True by done. by split; [eexists|].
Qed.

End Create.

Lemma call_CreateVolume v m :
  call (CreateVolume v) m =
    match injected (ds m) with
    | Some e => (Returns (Some e), with_ds (served (CallCreateVolume v) (ds m)) m)
    | None =>
        match volumes (ds m) !! vName v with
        | Some _ =>
            (Returns (Some (Failure "datastore: volume already exists")),
             with_ds (served (CallCreateVolume v) (ds m)) m)
        | None =>
            (Returns None,
             with_ds (with_volumes (<[vName v := v]> (volumes (ds m)))
                        (served (CallCreateVolume v) (ds m))) m)
        end
    end.
Proof.
  unfold call, CreateVolume, write, attempt.
  destruct (injected (ds m)); [done|]. simpl.
  by destruct (volumes (ds m) !! vName v).
Qed.

Lemma Example_NewVolume_persists : persists Example.NewVolume.
Proof.
  intros info m m'. unfold Example.NewVolume. rewrite call_CreateVolume.
  destruct (injected (ds m)); [done|].
  destruct (volumes (ds m) !! vName info); [done|].
  intros [= <-]. cbn. apply lookup_insert_eq.
Qed.

Lemma VolumeCreate_from_backup_takes_backup_size_witness :
  Size <$> (volumeSpec <$>
    volumes (ds (VolumeCreate Example.ConvertSize Example.Now Example.GetBackup
                   Example.GetRandomNode Example.NewVolume
                   (Example.createV2 "10Gi" Example.backupB1)
                   (Example.cluster VolumeStateHealthy)).2) !! "v2")
  = Some "2Gi".
Proof.
  destruct (VolumeCreate_from_backup_takes_backup_size
              Example.ConvertSize Example.Now Example.GetBackup
              Example.GetRandomNode Example.NewVolume
              (Example.createV2 "10Gi" Example.backupB1)
              (Example.cluster VolumeStateHealthy)
              Example_NewVolume_persists)
    as (node & backup & _ & Hb & Hv).
  - discriminate.
  - reflexivity.
  - injection Hb as <-. exact (f_equal (fmap Size ∘ fmap volumeSpec) Hv).
Defined.

Lemma VolumeCreate_precondition_failures_write_nothing_witness :
  VolumeCreate Example.ConvertSize Example.Now Example.GetBackup
    Example.GetRandomNode Example.NewVolume
    (Example.createV2 "ten" "") (Example.cluster VolumeStateHealthy)
  = (Returns (Some (Wrap (Failure "util: invalid size")
                      "unable to create volume")),
     Example.cluster VolumeStateHealthy).
Proof.
  exact (proj1 (VolumeCreate_precondition_failures_write_nothing
                  Example.ConvertSize Example.Now Example.GetBackup
                  Example.GetRandomNode Example.NewVolume
                  (Example.createV2 "ten" "")
                  (Example.cluster VolumeStateHealthy))
           (Failure "util: invalid size") eq_refl).
Defined.

(** * Further properties of the facade *)

(** ** The read-modify-write operations on a reliable datastore *)

(** The manager after a read of [name] and a successful write of [v'] under
    that name, with [line] logged. *)
Lemma update_after_read name v v' line m :
  faults (ds m) = [] → volumes (ds m) !! name = Some v → vName v' = name →
  (do err <- call (UpdateVolume v') in
   check err in
   do _ <- Debugf line in
   ret None) (with_ds (served (CallGetVolume name) (ds m)) m)
  = (Returns None, stored name v' line m).
Proof.
  intros Hf E Hn. unfold bind, ret, Debugf. rewrite call_UpdateVolume.
  cbn [ds with_ds]. rewrite injected_reliable by (by apply served_reliable).
  change (volumes (served _ (ds m))) with (volumes (ds m)).
  by rewrite Hn, E.
Qed.

Lemma stored_reliable name v' line m :
  faults (ds m) = [] → faults (ds (stored name v' line m)) = [].
Proof. cbn. by intros ->. Qed.

Lemma stored_lookup name v' line m :
  volumes (ds (stored name v' line m)) !! name = Some v'.
Proof. cbn. apply lookup_insert_eq. Qed.

Lemma stored_durable name v' line m :
  durable (ds (stored name v' line m))
  = (<[name := v']> (volumes (ds m)), replicas (ds m), settings (ds m)).
Proof. done. Qed.

Lemma VolumeAttach_run request m v :
  faults (ds m) = [] →
  volumes (ds m) !! VolumeAttachRequest.Name request = Some v →
  vName v = VolumeAttachRequest.Name request →
  vState v = VolumeStateDetached →
  VolumeAttach request m =
    (Returns None,
     stored (VolumeAttachRequest.Name request)
       (set_DesireState VolumeStateHealthy
          (set_OwnerID (VolumeAttachRequest.NodeID request)
             (set_NodeID (VolumeAttachRequest.NodeID request) v)))
       "Attaching volume %v to %v" m).
Proof.
  intros Hf E Hn Hs. unfold VolumeAttach. rewrite deferred_wrapping.
  unfold bind at 1. rewrite call_GetVolume, (injected_reliable _ Hf), E.
  rewrite decide_False by (by rewrite Hs; intros []).
  change (vNodeID (set_NodeID ?n v)) with n.
  by rewrite (update_after_read _ v).
Qed.

Lemma VolumeDetach_run request m v :
  faults (ds m) = [] →
  volumes (ds m) !! VolumeDetachRequest.Name request = Some v →
  vName v = VolumeDetachRequest.Name request →
  vState v = VolumeStateHealthy ∨ vState v = VolumeStateDegraded →
  VolumeDetach request m =
    (Returns None,
     stored (VolumeDetachRequest.Name request)
       (set_NodeID "" (set_DesireState VolumeStateDetached v))
       "Detaching volume %v from %v" m).
Proof.
  intros Hf E Hn Hs. unfold VolumeDetach. rewrite deferred_wrapping.
  unfold bind at 1. rewrite call_GetVolume, (injected_reliable _ Hf), E.
  rewrite decide_False by (intros [? ?]; by destruct Hs).
  by rewrite (update_after_read _ v).
Qed.

Lemma VolumeDelete_run request m v :
  faults (ds m) = [] →
  volumes (ds m) !! VolumeDeleteRequest.Name request = Some v →
  vName v = VolumeDeleteRequest.Name request →
  VolumeDelete request m =
    (Returns None,
     stored (VolumeDeleteRequest.Name request)
       (set_DesireState VolumeStateDeleted v) "Deleting volume %v" m).
Proof.
  intros Hf E Hn. unfold VolumeDelete. rewrite deferred_wrapping.
  unfold bind at 1. rewrite call_GetVolume, (injected_reliable _ Hf), E.
  by rewrite (update_after_read _ v).
Qed.

Lemma VolumeRecurringUpdate_run request m v :
  faults (ds m) = [] →
  volumes (ds m) !! VolumeRecurringUpdateRequest.Name request = Some v →
  vName v = VolumeRecurringUpdateRequest.Name request →
  VolumeRecurringUpdate request m =
    (Returns None,
     stored (VolumeRecurringUpdateRequest.Name request)
       (set_RecurringJobs (VolumeRecurringUpdateRequest.RecurringJobs request) v)
       "Updating volume %v recurring schedule" m).
Proof.
  intros Hf E Hn. unfold VolumeRecurringUpdate. rewrite deferred_wrapping.
  unfold bind at 1. rewrite call_GetVolume, (injected_reliable _ Hf), E.
  by rewrite (update_after_read _ v).
Qed.

(** ** VolumeDetach *)

(** X1.  VolumeDetach returns nil exactly when the volume exists and its
    State is Healthy or Degraded.  On success the stored record has
    DesireState Detached and an empty NodeID; OwnerID and every other field
    stay as they were.  A missing volume gives the not-found error, any other
    State the invalid-state error.  Whenever the call does not return nil the
    durable records are unchanged, also when a datastore call fails. *)
Theorem VolumeDetach_succeeds_iff_attached request m :
  let name := VolumeDetachRequest.Name request in
  let r := (VolumeDetach request m).1 in
  let m' := (VolumeDetach request m).2 in
  (r ≠ Returns None → durable (ds m') = durable (ds m)) ∧
  (faults (ds m) = [] → keyed (ds m) →
     (r = Returns None ↔
        ∃ v, volumes (ds m) !! name = Some v ∧
             (vState v = VolumeStateHealthy ∨ vState v = VolumeStateDegraded)) ∧
     match volumes (ds m) !! name with
     | None =>
         r = Returns (Some (Wrap (Errorf "cannot find volume %v" [VString name])
                              "unable to detach volume"))
     | Some v =>
         if decide (vState v = VolumeStateHealthy ∨ vState v = VolumeStateDegraded)
         then
           durable (ds m') =
             (<[name :=
                  {| volumeSpec :=
                       {| OwnerID := OwnerID (volumeSpec v);
                          Size := Size (volumeSpec v);
                          FromBackup := FromBackup (volumeSpec v);
                          NumberOfReplicas := NumberOfReplicas (volumeSpec v);
                          StaleReplicaTimeout := StaleReplicaTimeout (volumeSpec v);
                          DesireState := VolumeStateDetached;
                          RecurringJobs := RecurringJobs (volumeSpec v);
                          NodeID := "" |};
                     volumeStatus := volumeStatus v;
                     metadata := metadata v |}]> (volumes (ds m)),
              replicas (ds m), settings (ds m))
         else
           r = Returns (Some (Wrap (Errorf "invalid state to detach: %v"
                                      [VState (vState v)])
                                "unable to detach volume"))
     end).
Proof.
  intros name r m'. subst r m'. split.
  - unfold VolumeDetach. run. rewrite call_GetVolume. fold name.
    destruct (injected (ds m)); [done|].
    destruct (volumes (ds m) !! name) as [v|]; [|done].
    destruct (decide _); [done|].
    rewrite call_UpdateVolume. cbn [ds with_ds].
    repeat branch; cbn; done.
  - intros Hf Hk.
    destruct (volumes (ds m) !! name) as [v|] eqn:E.
    2:{ unfold VolumeDetach. run. rewrite call_GetVolume. fold name.
        rewrite (injected_reliable _ Hf), E. split; [|done].
        split; [done|]. by intros (v & ? & _). }
    pose proof (keyed_volume _ _ _ Hk E) as Hn.
    destruct (decide (vState v = VolumeStateHealthy ∨ _)) as [Hs|Hs].
    + rewrite (VolumeDetach_run request m v Hf E Hn Hs).
      split; [|done]. split; [|done]. intros _. by exists v.
    + unfold VolumeDetach. run. rewrite call_GetVolume. fold name.
      rewrite (injected_reliable _ Hf), E.
      rewrite decide_True.
      2:{ split; intros ?; apply Hs; [by left|by right]. }
      split; [|done]. split; [done|]. intros (v' & [= <-] & ?). done.
Qed.

Lemma VolumeDetach_succeeds_iff_attached_witness :
  (VolumeDetach {| VolumeDetachRequest.Name := "v1" |}
     (Example.cluster VolumeStateDegraded)).1 = Returns None.
Proof.
  destruct (VolumeDetach_succeeds_iff_attached
              {| VolumeDetachRequest.Name := "v1" |}
              (Example.cluster VolumeStateDegraded)) as [_ H].
  destruct (H eq_refl (Example_keyed _ _ _ _)) as [[_ Hiff] _].
  apply Hiff. eexists. split; [reflexivity|]. by right.
Defined.

(** ** VolumeRecurringUpdate *)

(** X2.  VolumeRecurringUpdate has no precondition on State: for an existing
    volume it stores the record with RecurringJobs replaced by the request's
    and every other field as it was.  Whenever the call does not return nil
    the durable records are unchanged, also when a datastore call fails. *)
Theorem VolumeRecurringUpdate_replaces_jobs request m :
  let name := VolumeRecurringUpdateRequest.Name request in
  let jobs := VolumeRecurringUpdateRequest.RecurringJobs request in
  let r := (VolumeRecurringUpdate request m).1 in
  let m' := (VolumeRecurringUpdate request m).2 in
  (r ≠ Returns None → durable (ds m') = durable (ds m)) ∧
  (∀ v, volumes (ds m) !! name = Some v → vName v = name →
     faults (ds m) = [] →
     r = Returns None ∧
     durable (ds m') =
       (<[name :=
            {| volumeSpec :=
                 {| OwnerID := OwnerID (volumeSpec v);
                    Size := Size (volumeSpec v);
                    FromBackup := FromBackup (volumeSpec v);
                    NumberOfReplicas := NumberOfReplicas (volumeSpec v);
                    StaleReplicaTimeout := StaleReplicaTimeout (volumeSpec v);
                    DesireState := DesireState (volumeSpec v);
                    RecurringJobs := jobs;
                    NodeID := NodeID (volumeSpec v) |};
               volumeStatus := volumeStatus v;
               metadata := metadata v |}]> (volumes (ds m)),
        replicas (ds m), settings (ds m))).
Proof.
  intros name jobs r m'. subst r m'. split.
  - unfold VolumeRecurringUpdate. run. rewrite call_GetVolume. fold name.
    destruct (injected (ds m)); [done|].
    destruct (volumes (ds m) !! name) as [v|]; [|done].
    rewrite call_UpdateVolume. cbn [ds with_ds].
    repeat branch; cbn; done.
  - intros v E Hn Hf. by rewrite (VolumeRecurringUpdate_run request m v Hf E Hn).
Qed.

Lemma VolumeRecurringUpdate_replaces_jobs_witness :
  (VolumeRecurringUpdate
     {| VolumeRecurringUpdateRequest.Name := "v1";
        VolumeRecurringUpdateRequest.RecurringJobs :=
          [{| JobName := "nightly"; Cron := "0 3 * * *" |}] |}
     (Example.cluster VolumeStateFault)).1 = Returns None.
Proof.
  destruct (VolumeRecurringUpdate_replaces_jobs
     {| VolumeRecurringUpdateRequest.Name := "v1";
        VolumeRecurringUpdateRequest.RecurringJobs :=
          [{| JobName := "nightly"; Cron := "0 3 * * *" |}] |}
     (Example.cluster VolumeStateFault)) as [_ H].
  exact (proj1 (H (Example.volume "v1" VolumeStateFault) eq_refl eq_refl eq_refl)).
Defined.

(** X3.  Two recurring updates in a row: the second succeeds and the durable
    records are those the second update alone would have left.  The first
    schedule is gone; nothing is merged. *)
Theorem VolumeRecurringUpdate_last_write_wins name jobs1 jobs2 m v :
  faults (ds m) = [] → volumes (ds m) !! name = Some v → vName v = name →
  let update jobs :=
    VolumeRecurringUpdate
      {| VolumeRecurringUpdateRequest.Name := name;
         VolumeRecurringUpdateRequest.RecurringJobs := jobs |} in
  (update jobs1 m).1 = Returns None ∧
  (update jobs2 (update jobs1 m).2).1 = Returns None ∧
  durable (ds (update jobs2 (update jobs1 m).2).2)
  = durable (ds (update jobs2 m).2).
Proof.
  intros Hf E Hn update. subst update. cbn beta.
  pose proof (VolumeRecurringUpdate_run
                {| VolumeRecurringUpdateRequest.Name := name;
                   VolumeRecurringUpdateRequest.RecurringJobs := jobs1 |}
                m v Hf E Hn) as H1.
  pose proof (VolumeRecurringUpdate_run
                {| VolumeRecurringUpdateRequest.Name := name;
                   VolumeRecurringUpdateRequest.RecurringJobs := jobs2 |}
                m v Hf E Hn) as H2.
  rewrite H1, H2. cbn [fst snd].
  rewrite (VolumeRecurringUpdate_run
             {| VolumeRecurringUpdateRequest.Name := name;
                VolumeRecurringUpdateRequest.RecurringJobs := jobs2 |}
             _ (set_RecurringJobs jobs1 v)
             (stored_reliable _ _ _ _ Hf) (stored_lookup _ _ _ _) Hn).
  cbn [fst snd]. rewrite !stored_durable.
  cbn [VolumeRecurringUpdateRequest.Name VolumeRecurringUpdateRequest.RecurringJobs].
  change (volumes (ds (stored name ?x ?l m))) with (<[name := x]> (volumes (ds m))).
  by rewrite insert_insert_eq.
Qed.

Lemma VolumeRecurringUpdate_last_write_wins_witness :
  durable (ds (VolumeRecurringUpdate
     {| VolumeRecurringUpdateRequest.Name := "v1";
        VolumeRecurringUpdateRequest.RecurringJobs := [] |}
     (VolumeRecurringUpdate
        {| VolumeRecurringUpdateRequest.Name := "v1";
           VolumeRecurringUpdateRequest.RecurringJobs :=
             [{| JobName := "nightly"; Cron := "0 3 * * *" |}] |}
        (Example.cluster VolumeStateHealthy)).2).2)
  = durable (ds (VolumeRecurringUpdate
     {| VolumeRecurringUpdateRequest.Name := "v1";
        VolumeRecurringUpdateRequest.RecurringJobs := [] |}
     (Example.cluster VolumeStateHealthy)).2).
Proof.
  exact (proj2 (proj2 (VolumeRecurringUpdate_last_write_wins "v1"
     [{| JobName := "nightly"; Cron := "0 3 * * *" |}] []
     (Example.cluster VolumeStateHealthy)
     (Example.volume "v1" VolumeStateHealthy) eq_refl eq_refl eq_refl))).
Defined.

(** ** Operations in sequence *)

(** X4.  VolumeDelete twice: both calls succeed and the second leaves the
    durable records as the first left them. *)
Theorem VolumeDelete_twice name m v :
  faults (ds m) = [] → volumes (ds m) !! name = Some v → vName v = name →
  let delete := VolumeDelete {| VolumeDeleteRequest.Name := name |} in
  (delete m).1 = Returns None ∧
  (delete (delete m).2).1 = Returns None ∧
  durable (ds (delete (delete m).2).2) = durable (ds (delete m).2).
Proof.
  intros Hf E Hn delete. subst delete. cbn beta.
  rewrite (VolumeDelete_run {| VolumeDeleteRequest.Name := name |} m v Hf E Hn).
  cbn [fst snd VolumeDeleteRequest.Name].
  rewrite (VolumeDelete_run {| VolumeDeleteRequest.Name := name |}
             _ (set_DesireState VolumeStateDeleted v)
             (stored_reliable _ _ _ _ Hf) (stored_lookup _ _ _ _) Hn).
  cbn [fst snd VolumeDeleteRequest.Name]. rewrite !stored_durable.
  change (volumes (ds (stored name ?x ?l m))) with (<[name := x]> (volumes (ds m))).
  by rewrite insert_insert_eq.
Qed.

Lemma VolumeDelete_twice_witness :
  durable (ds (VolumeDelete Example.deleteV1
                 (VolumeDelete Example.deleteV1
                    (Example.cluster VolumeStateDetached)).2).2)
  = durable (ds (VolumeDelete Example.deleteV1
                   (Example.cluster VolumeStateDetached)).2).
Proof.
  exact (proj2 (proj2 (VolumeDelete_twice "v1"
     (Example.cluster VolumeStateDetached)
     (Example.volume "v1" VolumeStateDetached) eq_refl eq_refl eq_refl))).
Defined.

Lemma VolumeDetach_wrong_state request m v :
  injected (ds m) = None →
  volumes (ds m) !! VolumeDetachRequest.Name request = Some v →
  vState v ≠ VolumeStateHealthy → vState v ≠ VolumeStateDegraded →
  VolumeDetach request m =
    (Returns (Some (Wrap (Errorf "invalid state to detach: %v" [VState (vState v)])
                      "unable to detach volume")),
     with_ds (served (CallGetVolume (VolumeDetachRequest.Name request)) (ds m)) m).
Proof.
  intros Hi E H1 H2. unfold VolumeDetach. rewrite deferred_wrapping.
  unfold bind, ret. rewrite call_GetVolume, Hi, E.
  by rewrite decide_True.
Qed.

(** X5.  VolumeAttach sets the desired state and leaves State alone, so a
    VolumeDetach that follows it directly is refused: it fails with the
    invalid-state error for Detached and changes no durable record. *)
Theorem VolumeDetach_right_after_attach_is_refused name nodeID m v :
  faults (ds m) = [] → volumes (ds m) !! name = Some v → vName v = name →
  vState v = VolumeStateDetached →
  let attached :=
    VolumeAttach {| VolumeAttachRequest.Name := name;
                    VolumeAttachRequest.NodeID := nodeID |} m in
  let detached :=
    VolumeDetach {| VolumeDetachRequest.Name := name |} attached.2 in
  attached.1 = Returns None ∧
  detached.1 =
    Returns (Some (Wrap (Errorf "invalid state to detach: %v"
                           [VState VolumeStateDetached])
                     "unable to detach volume")) ∧
  durable (ds detached.2) = durable (ds attached.2).
Proof.
  intros Hf E Hn Hs attached detached. subst detached attached.
  rewrite (VolumeAttach_run
             {| VolumeAttachRequest.Name := name;
                VolumeAttachRequest.NodeID := nodeID |} m v Hf E Hn Hs).
  cbn [fst snd VolumeAttachRequest.Name VolumeAttachRequest.NodeID].
  rewrite (VolumeDetach_wrong_state {| VolumeDetachRequest.Name := name |} _
             (set_DesireState VolumeStateHealthy
                (set_OwnerID nodeID (set_NodeID nodeID v)))).
  - cbn [fst snd]. change (vState (set_DesireState _ _)) with (vState v).
    by rewrite Hs.
  - apply injected_reliable. by apply stored_reliable.
  - apply stored_lookup.
  - change (vState (set_DesireState _ _)) with (vState v). by rewrite Hs.
  - change (vState (set_DesireState _ _)) with (vState v). by rewrite Hs.
Qed.

Lemma VolumeDetach_right_after_attach_is_refused_witness :
  (VolumeDetach {| VolumeDetachRequest.Name := "v1" |}
     (VolumeAttach Example.attachV1 (Example.cluster VolumeStateDetached)).2).1
  = Returns (Some (Wrap (Errorf "invalid state to detach: %v"
                           [VState VolumeStateDetached])
                     "unable to detach volume")).
Proof.
  exact (proj1 (proj2 (VolumeDetach_right_after_attach_is_refused "v1" "n1"
     (Example.cluster VolumeStateDetached)
     (Example.volume "v1" VolumeStateDetached)
     eq_refl eq_refl eq_refl eq_refl))).
Defined.

(** X6.  VolumeAttach does not look at NodeID or DesireState: a second
    attach, to another node, succeeds while State is still Detached, and the
    durable records are those an attach to the second node alone would have
    left. *)
Theorem VolumeAttach_again_moves_the_volume name node1 node2 m v :
  faults (ds m) = [] → volumes (ds m) !! name = Some v → vName v = name →
  vState v = VolumeStateDetached →
  let attach nodeID :=
    VolumeAttach {| VolumeAttachRequest.Name := name;
                    VolumeAttachRequest.NodeID := nodeID |} in
  (attach node1 m).1 = Returns None ∧
  (attach node2 (attach node1 m).2).1 = Returns None ∧
  durable (ds (attach node2 (attach node1 m).2).2)
  = durable (ds (attach node2 m).2).
Proof.
  intros Hf E Hn Hs attach. subst attach. cbn beta.
  pose proof (VolumeAttach_run
                {| VolumeAttachRequest.Name := name;
                   VolumeAttachRequest.NodeID := node1 |} m v Hf E Hn Hs) as H1.
  pose proof (VolumeAttach_run
                {| VolumeAttachRequest.Name := name;
                   VolumeAttachRequest.NodeID := node2 |} m v Hf E Hn Hs) as H2.
  rewrite H1, H2.
  cbn [fst snd VolumeAttachRequest.Name VolumeAttachRequest.NodeID].
  rewrite (VolumeAttach_run
             {| VolumeAttachRequest.Name := name;
                VolumeAttachRequest.NodeID := node2 |} _
             (set_DesireState VolumeStateHealthy
                (set_OwnerID node1 (set_NodeID node1 v)))
             (stored_reliable _ _ _ _ Hf) (stored_lookup _ _ _ _) Hn Hs).
  cbn [fst snd VolumeAttachRequest.Name VolumeAttachRequest.NodeID].
  rewrite !stored_durable.
  change (volumes (ds (stored name ?x ?l m))) with (<[name := x]> (volumes (ds m))).
  by rewrite insert_insert_eq.
Qed.

Lemma VolumeAttach_again_moves_the_volume_witness :
  (VolumeAttach {| VolumeAttachRequest.Name := "v1";
                   VolumeAttachRequest.NodeID := "n2" |}
     (VolumeAttach Example.attachV1 (Example.cluster VolumeStateDetached)).2).1
  = Returns None.
Proof.
  exact (proj1 (proj2 (VolumeAttach_again_moves_the_volume "v1" "n1" "n2"
     (Example.cluster VolumeStateDetached)
     (Example.volume "v1" VolumeStateDetached)
     eq_refl eq_refl eq_refl eq_refl))).
Defined.

(** X7.  A requested deletion does not block an attach: after VolumeDelete on
    a Detached volume, VolumeAttach succeeds and the durable records are
    those the attach alone would have left, DesireState Healthy included. *)
Theorem VolumeAttach_after_delete_overrides_it name nodeID m v :
  faults (ds m) = [] → volumes (ds m) !! name = Some v → vName v = name →
  vState v = VolumeStateDetached →
  let attach :=
    VolumeAttach {| VolumeAttachRequest.Name := name;
                    VolumeAttachRequest.NodeID := nodeID |} in
  let deleted := VolumeDelete {| VolumeDeleteRequest.Name := name |} m in
  deleted.1 = Returns None ∧
  (attach deleted.2).1 = Returns None ∧
  durable (ds (attach deleted.2).2) = durable (ds (attach m).2).
Proof.
  intros Hf E Hn Hs attach deleted. subst attach deleted. cbn beta.
  rewrite (VolumeDelete_run {| VolumeDeleteRequest.Name := name |} m v Hf E Hn).
  rewrite (VolumeAttach_run
             {| VolumeAttachRequest.Name := name;
                VolumeAttachRequest.NodeID := nodeID |} m v Hf E Hn Hs).
  cbn [fst snd VolumeAttachRequest.Name VolumeAttachRequest.NodeID
       VolumeDeleteRequest.Name].
  rewrite (VolumeAttach_run
             {| VolumeAttachRequest.Name := name;
                VolumeAttachRequest.NodeID := nodeID |} _
             (set_DesireState VolumeStateDeleted v)
             (stored_reliable _ _ _ _ Hf) (stored_lookup _ _ _ _) Hn Hs).
  cbn [fst snd VolumeAttachRequest.Name VolumeAttachRequest.NodeID].
  rewrite !stored_durable.
  change (volumes (ds (stored name ?x ?l m))) with (<[name := x]> (volumes (ds m))).
  by rewrite insert_insert_eq.
Qed.

Lemma VolumeAttach_after_delete_overrides_it_witness :
  vDesireState <$>
    volumes (ds (VolumeAttach Example.attachV1
                   (VolumeDelete Example.deleteV1
                      (Example.cluster VolumeStateDetached)).2).2) !! "v1"
  = Some VolumeStateHealthy.
Proof.
  pose proof (proj2 (proj2 (VolumeAttach_after_delete_overrides_it "v1" "n1"
     (Example.cluster VolumeStateDetached)
     (Example.volume "v1" VolumeStateDetached)
     eq_refl eq_refl eq_refl eq_refl))) as H.
  exact (f_equal (λ t, vDesireState <$> t.1.1 !! "v1") H).
Defined.

(** ** VolumeSalvage: edge cases *)

(** The start of VolumeSalvage on a faulted volume, up to the loop. *)
Lemma VolumeSalvage_enters_loop request m v :
  injected (ds m) = None →
  volumes (ds m) !! VolumeSalvageRequest.Name request = Some v →
  vState v = VolumeStateFault →
  VolumeSalvage request m =
    match salvageReplicas (vName v)
            (VolumeSalvageRequest.SalvageReplicaNames request)
            (do err <- call (UpdateVolume (set_DesireState VolumeStateDetached v)) in
             check err in
             do _ <- Debugf "Salvaging volume %v" in
             ret None)
            (with_ds (served (CallGetVolume (VolumeSalvageRequest.Name request))
                        (ds m)) m)
    with
    | (Returns err, m') => (Returns (wrap "unable to salvage volume" err), m')
    | (Panics err, m') => (Panics (wrap "unable to salvage volume" err), m')
    end.
Proof.
  intros Hi E Hs. unfold VolumeSalvage. rewrite deferred_wrapping.
  unfold bind at 1. rewrite call_GetVolume, Hi, E.
  by rewrite decide_False by (by rewrite Hs; intros []).
Qed.

(** X8.  VolumeSalvage on a volume whose State is not Fault fails with the
    invalid-state error after its one read: no replica is looked at and
    nothing is written. *)
Theorem VolumeSalvage_refuses_other_states request m v :
  injected (ds m) = None →
  volumes (ds m) !! VolumeSalvageRequest.Name request = Some v →
  vState v ≠ VolumeStateFault →
  VolumeSalvage request m =
    (Returns (Some (Wrap (Errorf "invalid state to salvage: %v" [VState (vState v)])
                      "unable to salvage volume")),
     with_ds (served (CallGetVolume (VolumeSalvageRequest.Name request)) (ds m)) m).
Proof.
  intros Hi E Hs. unfold VolumeSalvage. rewrite deferred_wrapping.
  unfold bind, ret. rewrite call_GetVolume, Hi, E.
  by rewrite decide_True.
Qed.

Lemma VolumeSalvage_refuses_other_states_witness :
  (VolumeSalvage Example.salvageV1 (Example.cluster VolumeStateDegraded)).1
  = Returns (Some (Wrap (Errorf "invalid state to salvage: %v"
                           [VState VolumeStateDegraded])
                     "unable to salvage volume")).
Proof.
  exact (f_equal fst (VolumeSalvage_refuses_other_states Example.salvageV1
     (Example.cluster VolumeStateDegraded)
     (Example.volume "v1" VolumeStateDegraded) eq_refl eq_refl
     ltac:(discriminate))).
Defined.

(** A salvage that goes through, with the store the loop leaves behind. *)
Lemma VolumeSalvage_run request m v :
  let name := VolumeSalvageRequest.Name request in
  let names := VolumeSalvageRequest.SalvageReplicaNames request in
  faults (ds m) = [] → keyed (ds m) →
  volumes (ds m) !! name = Some v → vState v = VolumeStateFault →
  NoDup names → all_failed name names (replicas (ds m)) →
  ∃ d1,
    VolumeSalvage request m =
      (Returns None,
       with_logrus (logrus m ++ ["Salvaging volume %v"])
         (with_ds
            (with_volumes
               (<[name := set_DesireState VolumeStateDetached v]> (volumes (ds m)))
               (served (CallUpdateVolume (set_DesireState VolumeStateDetached v)) d1))
            m)) ∧
    faults d1 = [] ∧ keyed d1 ∧
    volumes d1 = volumes (ds m) ∧ settings d1 = settings (ds m) ∧
    replicas d1 = clearedReplicas name names (replicas (ds m)).
Proof.
  intros name names Hf Hk E Hs Hnd Hall.
  pose proof (keyed_volume _ _ _ Hk E) as Hn.
  rewrite (VolumeSalvage_enters_loop request m v (injected_reliable _ Hf) E Hs).
  fold name names. rewrite Hn.
  edestruct (salvageReplicas_all_failed name names) as
    (d1 & -> & Hf1 & Hk1 & Hv1 & Hs1 & Hr1);
    [| |exact Hnd|exact Hall|]; [by (cbn; rewrite Hf)|exact Hk|].
  cbn in Hv1, Hs1, Hr1. exists d1.
  unfold bind, ret, Debugf. rewrite call_UpdateVolume. cbn [ds with_ds].
  rewrite (injected_reliable _ Hf1).
  change (vName (set_DesireState _ _)) with (vName v).
  rewrite Hn, Hv1, E. done.
Qed.

(** X9.  VolumeSalvage with no replica names, on a faulted volume: it
    succeeds, the volume is stored with DesireState Detached, the replicas
    are untouched, and the datastore sees the read and the write only. *)
Theorem VolumeSalvage_without_names name m v :
  faults (ds m) = [] → volumes (ds m) !! name = Some v → vName v = name →
  vState v = VolumeStateFault →
  VolumeSalvage {| VolumeSalvageRequest.Name := name;
                   VolumeSalvageRequest.SalvageReplicaNames := [] |} m
  = (Returns None,
     stored name (set_DesireState VolumeStateDetached v) "Salvaging volume %v" m).
Proof.
  intros Hf E Hn Hs.
  rewrite (VolumeSalvage_enters_loop
             {| VolumeSalvageRequest.Name := name;
                VolumeSalvageRequest.SalvageReplicaNames := [] |}
             m v (injected_reliable _ Hf) E Hs).
  cbn [VolumeSalvageRequest.Name VolumeSalvageRequest.SalvageReplicaNames
       salvageReplicas].
  by rewrite (update_after_read _ v).
Qed.

Lemma VolumeSalvage_without_names_witness :
  replicas (ds (VolumeSalvage
                  {| VolumeSalvageRequest.Name := "v1";
                     VolumeSalvageRequest.SalvageReplicaNames := [] |}
                  Example.bothFailed).2)
  = replicas (ds Example.bothFailed).
Proof.
  exact (f_equal (λ p, replicas (ds p.2))
     (VolumeSalvage_without_names "v1" Example.bothFailed
        (Example.volume "v1" VolumeStateFault)
        eq_refl eq_refl eq_refl eq_refl)).
Defined.

(** The loop up to a name, when the names before it are distinct and failed. *)
Lemma salvageReplicas_prefix vol pre rep post rest m :
  faults (ds m) = [] → keyed (ds m) → NoDup pre →
  all_failed vol pre (replicas (ds m)) →
  ∃ d1,
    salvageReplicas vol (pre ++ rep :: post) rest m =
      salvageReplicas vol (rep :: post) rest (with_ds d1 m) ∧
    faults d1 = [] ∧ keyed d1 ∧
    volumes d1 = volumes (ds m) ∧ settings d1 = settings (ds m) ∧
    replicas d1 = clearedReplicas vol pre (replicas (ds m)).
Proof.
  intros Hf Hk Hnd Hall. rewrite salvageReplicas_app.
  by apply salvageReplicas_all_failed.
Qed.

(** The loop at a replica whose FailedAt is empty. *)
Lemma salvageReplicas_healthy vol rep post rest m r :
  injected (ds m) = None → replicas (ds m) !! (vol, rep) = Some r →
  FailedAt r = "" →
  salvageReplicas vol (rep :: post) rest m =
    (Returns (Some (Errorf "replica %v is not bad" [VString rep])),
     with_ds (served (CallGetVolumeReplica vol rep) (ds m)) m).
Proof.
  intros Hi E Hg. cbn [salvageReplicas]. unfold bind, ret.
  rewrite call_GetVolumeReplica, Hi, E. by rewrite decide_True.
Qed.

(** The loop at a replica that does not exist. *)
Lemma salvageReplicas_missing vol rep post rest m :
  injected (ds m) = None → replicas (ds m) !! (vol, rep) = None →
  salvageReplicas vol (rep :: post) rest m =
    (Panics None, with_ds (served (CallGetVolumeReplica vol rep) (ds m)) m).
Proof.
  intros Hi E. cbn [salvageReplicas]. unfold bind, panic.
  by rewrite call_GetVolumeReplica, Hi, E.
Qed.

(** X10.  A replica named twice: the first occurrence clears it, so at the
    second the loop finds it healthy.  The call fails naming that replica,
    the volume record is unchanged, and the replicas named up to there stay
    cleared. *)
Theorem VolumeSalvage_repeated_name_fails request m v pre rep mid post :
  let name := VolumeSalvageRequest.Name request in
  faults (ds m) = [] → keyed (ds m) →
  volumes (ds m) !! name = Some v → vState v = VolumeStateFault →
  VolumeSalvageRequest.SalvageReplicaNames request
    = (pre ++ rep :: mid ++ rep :: post)%list →
  NoDup (pre ++ rep :: mid) →
  all_failed name (pre ++ rep :: mid) (replicas (ds m)) →
  (VolumeSalvage request m).1 =
    Returns (Some (Wrap (Errorf "replica %v is not bad" [VString rep])
                     "unable to salvage volume")) ∧
  durable (ds (VolumeSalvage request m).2) =
    (volumes (ds m),
     clearedReplicas name (pre ++ rep :: mid) (replicas (ds m)),
     settings (ds m)).
Proof.
  intros name Hf Hk E Hs Hnames Hnd Hall.
  pose proof (keyed_volume _ _ _ Hk E) as Hn.
  rewrite (VolumeSalvage_enters_loop request m v (injected_reliable _ Hf) E Hs).
  fold name. rewrite Hn, Hnames.
  replace (pre ++ rep :: mid ++ rep :: post)%list
    with ((pre ++ rep :: mid) ++ rep :: post)%list
    by (by rewrite <- app_assoc).
  edestruct (salvageReplicas_prefix name (pre ++ rep :: mid) rep post) as
    (d1 & -> & Hf1 & Hk1 & Hv1 & Hs1 & Hr1);
    [| |exact Hnd|exact Hall|]; [by (cbn; rewrite Hf)|exact Hk|].
  cbn in Hv1, Hs1, Hr1.
  destruct (Hall rep) as (r & Er & _).
  { apply elem_of_app. right. by left. }
  rewrite (salvageReplicas_healthy _ _ _ _ _ (set_FailedAt "" r)).
  - cbn. unfold durable. cbn. by rewrite Hv1, Hs1, Hr1.
  - by apply injected_reliable.
  - cbn [ds with_ds]. rewrite Hr1, lookup_clearedReplicas.
    rewrite decide_True; [by rewrite Er|].
    apply list_elem_of_fmap. exists rep. split; [done|].
    apply elem_of_app. right. by left.
  - done.
Qed.

Lemma VolumeSalvage_repeated_name_fails_witness :
  (VolumeSalvage {| VolumeSalvageRequest.Name := "v1";
                    VolumeSalvageRequest.SalvageReplicaNames := ["r1"; "r1"] |}
     Example.bothFailed).1 =
  Returns (Some (Wrap (Errorf "replica %v is not bad" [VString "r1"])
                   "unable to salvage volume")).
Proof.
  refine (proj1 (VolumeSalvage_repeated_name_fails
     {| VolumeSalvageRequest.Name := "v1";
        VolumeSalvageRequest.SalvageReplicaNames := ["r1"; "r1"] |}
     Example.bothFailed (Example.volume "v1" VolumeStateFault)
     [] "r1" [] [] eq_refl (Example_keyed _ _ _ _) eq_refl eq_refl eq_refl _ _)).
  - apply NoDup_singleton.
  - intros rep ->%list_elem_of_singleton. eexists. split; [reflexivity|done].
Defined.

(** X11.  VolumeSalvage cannot be repeated: it leaves State at Fault and the
    named replicas healthy, so the same request again passes the state check
    and fails at its first name, changing nothing. *)
Theorem VolumeSalvage_again_fails request m v rep rest :
  let name := VolumeSalvageRequest.Name request in
  faults (ds m) = [] → keyed (ds m) →
  volumes (ds m) !! name = Some v → vState v = VolumeStateFault →
  VolumeSalvageRequest.SalvageReplicaNames request = rep :: rest →
  NoDup (rep :: rest) → all_failed name (rep :: rest) (replicas (ds m)) →
  let first := VolumeSalvage request m in
  let second := VolumeSalvage request first.2 in
  first.1 = Returns None ∧
  second.1 =
    Returns (Some (Wrap (Errorf "replica %v is not bad" [VString rep])
                     "unable to salvage volume")) ∧
  durable (ds second.2) = durable (ds first.2).
Proof.
  intros name Hf Hk E Hs Hnames Hnd Hall first second. subst first second.
  pose proof (keyed_volume _ _ _ Hk E) as Hn.
  destruct (VolumeSalvage_run request m v Hf Hk E Hs) as
    (d1 & -> & Hf1 & Hk1 & Hv1 & Hs1 & Hr1);
    [by rewrite Hnames|by rewrite Hnames|].
  fold name in Hr1. rewrite Hnames in Hr1.
  cbn [fst snd]. split; [done|].
  destruct (Hall rep) as (r & Er & _); [by left|].
  rewrite (VolumeSalvage_enters_loop request _
             (set_DesireState VolumeStateDetached v)).
  - fold name. rewrite Hnames.
    change (vName (set_DesireState _ v)) with (vName v). rewrite Hn.
    rewrite (salvageReplicas_healthy _ _ _ _ _ (set_FailedAt "" r)); [done| |
      |done].
    + apply injected_reliable. cbn. by rewrite Hf1.
    + cbn. rewrite Hr1, lookup_clearedReplicas.
      rewrite decide_True; [by rewrite Er|].
      apply list_elem_of_fmap. exists rep. split; [done|]. by left.
  - apply injected_reliable. cbn. by rewrite Hf1.
  - cbn. fold name. apply lookup_insert_eq.
  - done.
Qed.

Lemma VolumeSalvage_again_fails_witness :
  (VolumeSalvage Example.salvageV1
     (VolumeSalvage Example.salvageV1 Example.bothFailed).2).1 =
  Returns (Some (Wrap (Errorf "replica %v is not bad" [VString "r1"])
                   "unable to salvage volume")).
Proof.
  refine (proj1 (proj2 (VolumeSalvage_again_fails Example.salvageV1
     Example.bothFailed (Example.volume "v1" VolumeStateFault) "r1" ["r2"]
     eq_refl (Example_keyed _ _ _ _) eq_refl eq_refl eq_refl _
     Example_all_failed))).
  apply NoDup_cons. split; [by intros ?%list_elem_of_singleton|].
  apply NoDup_singleton.
Defined.

(** X12.  A named replica that does not exist: the datastore hands back nil
    without an error and the loop dereferences it.  The call panics, the
    volume record is unchanged, and the replicas named before stay
    cleared. *)
Theorem VolumeSalvage_missing_replica request m v pre bad post :
  let name := VolumeSalvageRequest.Name request in
  faults (ds m) = [] → keyed (ds m) →
  volumes (ds m) !! name = Some v → vState v = VolumeStateFault →
  VolumeSalvageRequest.SalvageReplicaNames request = (pre ++ bad :: post)%list →
  NoDup pre → all_failed name pre (replicas (ds m)) →
  replicas (ds m) !! (name, bad) = None →
  (VolumeSalvage request m).1 = Panics None ∧
  durable (ds (VolumeSalvage request m).2) =
    (volumes (ds m), clearedReplicas name pre (replicas (ds m)), settings (ds m)).
Proof.
  intros name Hf Hk E Hs Hnames Hnd Hall Eb.
  pose proof (keyed_volume _ _ _ Hk E) as Hn.
  rewrite (VolumeSalvage_enters_loop request m v (injected_reliable _ Hf) E Hs).
  fold name. rewrite Hn, Hnames.
  edestruct (salvageReplicas_prefix name pre bad post) as
    (d1 & -> & Hf1 & Hk1 & Hv1 & Hs1 & Hr1);
    [| |exact Hnd|exact Hall|]; [by (cbn; rewrite Hf)|exact Hk|].
  cbn in Hv1, Hs1, Hr1.
  rewrite salvageReplicas_missing.
  - cbn. unfold durable. cbn. by rewrite Hv1, Hs1, Hr1.
  - by apply injected_reliable.
  - cbn [ds with_ds]. rewrite Hr1, lookup_clearedReplicas, Eb.
    by destruct (decide _).
Qed.

Lemma VolumeSalvage_missing_replica_witness :
  (VolumeSalvage {| VolumeSalvageRequest.Name := "v1";
                    VolumeSalvageRequest.SalvageReplicaNames := ["r1"; "r3"] |}
     Example.bothFailed).1 = Panics None.
Proof.
  refine (proj1 (VolumeSalvage_missing_replica
     {| VolumeSalvageRequest.Name := "v1";
        VolumeSalvageRequest.SalvageReplicaNames := ["r1"; "r3"] |}
     Example.bothFailed (Example.volume "v1" VolumeStateFault)
     ["r1"] "r3" [] eq_refl (Example_keyed _ _ _ _) eq_refl eq_refl eq_refl
     _ _ eq_refl)).
  - apply NoDup_singleton.
  - intros rep ->%list_elem_of_singleton. eexists. split; [reflexivity|done].
Defined.

(** ** VolumeCreateBySpec: adoption *)

Section Adoption.

Variable ConvertSize : string -> Z * option error.
Variable Now : string.
Variable ValidateVolume : VolumeInfo -> option error.

Local Abbreviation VolumeCreateBySpec :=
  (VolumeCreateBySpec ConvertSize Now ValidateVolume).

Local Abbreviation prefix := "unable to create volume by spec".

(** The record as VolumeCreateBySpec rewrites it before validation. *)
Local Abbreviation adopted name v :=
  (set_DesireState VolumeStateDetached
     (set_Name name (set_State VolumeStateCreated (set_Created Now v)))).

(** The call on a record that is already Created, whatever else is in it. *)
Lemma VolumeCreateBySpec_created name m v :
  injected (ds m) = None → volumes (ds m) !! name = Some v →
  vState v = VolumeStateCreated →
  VolumeCreateBySpec name m =
    (Returns None,
     with_EventChan (EventChan m ++ [{| EventVolumeName := name |}])
       (with_ds (served (CallGetVolume name) (ds m)) m)).
Proof.
  intros Hi E Hs. unfold VolumeCreateBySpec. run.
  rewrite !call_GetVolume, Hi, E. by rewrite decide_True.
Qed.

Lemma VolumeCreateBySpec_run name m v :
  faults (ds m) = [] → volumes (ds m) !! name = Some v →
  vState v ≠ VolumeStateCreated → vOwnerID v ≠ "" →
  (ConvertSize (vSize v)).2 = None →
  ValidateVolume (adopted name v) = None →
  VolumeCreateBySpec name m =
    (Returns None,
     with_EventChan (EventChan m ++ [{| EventVolumeName := name |}])
       (stored name (adopted name v) "Created volume by spec %v" m)).
Proof.
  intros Hf E Hs Ho Hc Hv. unfold VolumeCreateBySpec.
  unfold deferred. unfold bind at 1.
  rewrite call_GetVolume, (injected_reliable _ Hf), E.
  rewrite !decide_False by done.
  change (vSize v) with (Size (volumeSpec v)) in Hc.
  unfold vSize. rewrite Hc, Hv.
  by rewrite (update_after_read name v).
Qed.

(** X13.  Adoption: for a stored volume that is not yet Created, has an
    owner, a size that parses and passes validation, VolumeCreateBySpec
    returns nil; the record stored under the name has Created set to the
    current time, State Created, DesireState Detached and its Name set to the
    name it was asked for - whatever Name the record held - with the other
    fields as they were; one event carrying the name is sent. *)
Theorem VolumeCreateBySpec_adopts name m v :
  faults (ds m) = [] → volumes (ds m) !! name = Some v →
  vState v ≠ VolumeStateCreated → vOwnerID v ≠ "" →
  (ConvertSize (vSize v)).2 = None →
  ValidateVolume (adopted name v) = None →
  (VolumeCreateBySpec name m).1 = Returns None ∧
  durable (ds (VolumeCreateBySpec name m).2) =
    (<[name :=
         {| volumeSpec :=
              {| OwnerID := OwnerID (volumeSpec v);
                 Size := Size (volumeSpec v);
                 FromBackup := FromBackup (volumeSpec v);
                 NumberOfReplicas := NumberOfReplicas (volumeSpec v);
                 StaleReplicaTimeout := StaleReplicaTimeout (volumeSpec v);
                 DesireState := VolumeStateDetached;
                 RecurringJobs := RecurringJobs (volumeSpec v);
                 NodeID := NodeID (volumeSpec v) |};
            volumeStatus := {| Created := Now; State := VolumeStateCreated |};
            metadata := {| Name := name |} |}]> (volumes (ds m)),
     replicas (ds m), settings (ds m)) ∧
  EventChan (VolumeCreateBySpec name m).2 =
    (EventChan m ++ [{| EventVolumeName := name |}])%list.
Proof.
  intros Hf E Hs Ho Hc Hv.
  by rewrite (VolumeCreateBySpec_run name m v Hf E Hs Ho Hc Hv).
Qed.

(** X15.  Failure writes nothing: whenever VolumeCreateBySpec does not return
    nil - an error or the panic, whatever the datastore does - the durable
    records are unchanged.  For a volume not yet Created the checks run in
    this order, each ending the call after the one read: a missing owner
    (reported with the Name the record holds), a size that does not parse,
    a record that fails validation. *)
Theorem VolumeCreateBySpec_failure_writes_nothing name m :
  ((VolumeCreateBySpec name m).1 ≠ Returns None →
     durable (ds (VolumeCreateBySpec name m).2) = durable (ds m)) ∧
  (∀ v, injected (ds m) = None → volumes (ds m) !! name = Some v →
     vState v ≠ VolumeStateCreated →
     let stopped err :=
       (Returns (Some (Wrap err prefix)),
        with_ds (served (CallGetVolume name) (ds m)) m) in
     (vOwnerID v = "" →
        VolumeCreateBySpec name m =
          stopped (Errorf "cannot create volume without target node ID: volume %v"
                     [VString (vName v)])) ∧
     (∀ e, vOwnerID v ≠ "" → (ConvertSize (vSize v)).2 = Some e →
        VolumeCreateBySpec name m = stopped e) ∧
     (∀ e, vOwnerID v ≠ "" → (ConvertSize (vSize v)).2 = None →
        ValidateVolume (adopted name v) = Some e →
        VolumeCreateBySpec name m = stopped e)).
Proof.
  split.
  - unfold VolumeCreateBySpec. run. rewrite !call_GetVolume.
    destruct (injected (ds m)); [done|].
    destruct (volumes (ds m) !! name) as [v|]; [|done].
    destruct (decide (vState v = _)); [done|].
    destruct (decide (vOwnerID v = _)); [done|].
    destruct (ConvertSize (vSize v)).2; [done|].
    destruct (ValidateVolume _); [done|].
    rewrite !call_UpdateVolume. cbn [ds with_ds].
    destruct (injected _); [done|].
    destruct (volumes _ !! _); done.
  - intros v Hi E Hs stopped. subst stopped. cbn beta.
    unfold VolumeCreateBySpec. run. rewrite !call_GetVolume, Hi, E.
    rewrite decide_False by done.
    split; [|split].
    + intros Ho. by rewrite decide_True.
    + intros e Ho Hc. rewrite decide_False by done.
      unfold vSize in *. by rewrite Hc.
    + intros e Ho Hc Hv. rewrite decide_False by done.
      unfold vSize in *. by rewrite Hc, Hv.
Qed.

End Adoption.

(** X14.  Adoption happens once: after VolumeCreateBySpec has adopted a
    volume, a second call - at a later time, with any size parser and any
    validation - returns nil and leaves the durable records as the first call
    left them, the Created timestamp included; it sends a second event. *)
Theorem VolumeCreateBySpec_adopts_once
    ConvertSize Now ValidateVolume ConvertSize' Now' ValidateVolume' name m v :
  faults (ds m) = [] → volumes (ds m) !! name = Some v →
  vState v ≠ VolumeStateCreated → vOwnerID v ≠ "" →
  (ConvertSize (vSize v)).2 = None →
  ValidateVolume
    (set_DesireState VolumeStateDetached
       (set_Name name (set_State VolumeStateCreated (set_Created Now v)))) = None →
  let first := VolumeCreateBySpec ConvertSize Now ValidateVolume name m in
  let second := VolumeCreateBySpec ConvertSize' Now' ValidateVolume' name first.2 in
  first.1 = Returns None ∧ second.1 = Returns None ∧
  durable (ds second.2) = durable (ds first.2) ∧
  vCreated <$> volumes (ds second.2) !! name = Some Now ∧
  EventChan second.2 =
    (EventChan m ++ [{| EventVolumeName := name |};
                     {| EventVolumeName := name |}])%list.
Proof.
  intros Hf E Hs Ho Hc Hv first second. subst first second.
  rewrite (VolumeCreateBySpec_run _ _ _ name m v Hf E Hs Ho Hc Hv).
  cbn [fst snd].
  rewrite (VolumeCreateBySpec_created _ _ _ name _
             (set_DesireState VolumeStateDetached
                (set_Name name (set_State VolumeStateCreated (set_Created Now v))))).
  - cbn [fst snd]. repeat split.
    + cbn. by rewrite lookup_insert_eq.
    + cbn. by rewrite <- app_assoc.
  - apply injected_reliable. cbn. by rewrite Hf.
  - cbn. apply lookup_insert_eq.
  - done.
Qed.

Lemma VolumeCreateBySpec_adopts_witness :
  (VolumeCreateBySpec Example.ConvertSize Example.Now Example.ValidateVolume
     "v1" (Example.cluster VolumeStateDetached)).1 = Returns None.
Proof.
  exact (proj1 (VolumeCreateBySpec_adopts
     Example.ConvertSize Example.Now Example.ValidateVolume
     "v1" (Example.cluster VolumeStateDetached)
     (Example.volume "v1" VolumeStateDetached)
     eq_refl eq_refl ltac:(discriminate) ltac:(discriminate) eq_refl eq_refl)).
Defined.

Lemma VolumeCreateBySpec_failure_writes_nothing_witness :
  VolumeCreateBySpec (λ _, (0%Z, Some (Failure "util: invalid size")))
    Example.Now Example.ValidateVolume "v1" (Example.cluster VolumeStateDetached)
  = (Returns (Some (Wrap (Failure "util: invalid size")
                      "unable to create volume by spec")),
     with_ds (served (CallGetVolume "v1")
                (ds (Example.cluster VolumeStateDetached)))
       (Example.cluster VolumeStateDetached)).
Proof.
  destruct (VolumeCreateBySpec_failure_writes_nothing
     (λ _, (0%Z, Some (Failure "util: invalid size")))
     Example.Now Example.ValidateVolume
     "v1" (Example.cluster VolumeStateDetached)) as [_ H].
  destruct (H (Example.volume "v1" VolumeStateDetached)
              eq_refl eq_refl ltac:(discriminate)) as (_ & Hsize & _).
  exact (Hsize (Failure "util: invalid size") ltac:(discriminate) eq_refl).
Defined.

Lemma VolumeCreateBySpec_adopts_once_witness :
  vCreated <$>
    volumes (ds (VolumeCreateBySpec Example.ConvertSize "2017-06-03T00:00:00Z"
                   Example.ValidateVolume "v1"
                   (VolumeCreateBySpec Example.ConvertSize Example.Now
                      Example.ValidateVolume "v1"
                      (Example.cluster VolumeStateDetached)).2).2) !! "v1"
  = Some Example.Now.
Proof.
  exact (proj1 (proj2 (proj2 (proj2 (VolumeCreateBySpec_adopts_once
     Example.ConvertSize Example.Now Example.ValidateVolume
     Example.ConvertSize "2017-06-03T00:00:00Z" Example.ValidateVolume
     "v1" (Example.cluster VolumeStateDetached)
     (Example.volume "v1" VolumeStateDetached)
     eq_refl eq_refl ltac:(discriminate) ltac:(discriminate)
     eq_refl eq_refl))))).
Defined.

(** ** VolumeCreate: without a backup, and followed by VolumeCreateBySpec *)

Section CreatePlain.

Variable ConvertSize : string -> Z * option error.
Variable Now : string.
Variable GetBackup : string -> error + Backup.
Variable GetRandomNode : VolumeManager -> error + Node.
Variable NewVolume : VolumeInfo -> M (option error).

Local Abbreviation create :=
  (VolumeCreate ConvertSize Now GetBackup GetRandomNode NewVolume).

(** A successful VolumeCreate has stored, under the requested name, a record
    in State Created. *)
Lemma VolumeCreate_success_stores request m :
  persists NewVolume →
  (create request m).1 = Returns None →
  ∃ info,
    volumes (ds (create request m).2) !! VolumeCreateRequest.Name request
      = Some info ∧
    vState info = VolumeStateCreated ∧
    vDesireState info = VolumeStateDetached.
Proof.
  intros Hp. unfold VolumeCreate. rewrite !deferred_wrapping.
  destruct (ConvertSize _).2; [done|].
  destruct (GetRandomNode m) as [e|node]; [done|].
  destruct (decide _).
  - destruct (GetBackup _) as [e|backup]; [done|].
    unfold bind, ret, Debugf.
    match goal with
    | |- context [NewVolume ?i m] =>
        pose proof (Hp i m) as Hp'; destruct (NewVolume i m) as [[[e|]|e] m1]
    end; try done.
    intros _. eexists. split; [cbn; by apply Hp'|done].
  - unfold bind, ret, Debugf.
    match goal with
    | |- context [NewVolume ?i m] =>
        pose proof (Hp i m) as Hp'; destruct (NewVolume i m) as [[[e|]|e] m1]
    end; try done.
    intros _. eexists. split; [cbn; by apply Hp'|done].
Qed.

(** X16.  Without a backup the requested size is the one stored, and the
    backup lookup plays no part: when FromBackup is empty, VolumeCreate does
    the same whatever [engineapi.GetBackup] would answer, and on success the
    record stored under the requested name carries the request's Size and an
    empty FromBackup. *)
Theorem VolumeCreate_without_backup_keeps_size request m :
  VolumeCreateRequest.FromBackup request = "" →
  (∀ GetBackup',
     VolumeCreate ConvertSize Now GetBackup' GetRandomNode NewVolume request m
     = create request m) ∧
  (persists NewVolume → (create request m).1 = Returns None →
   ∃ node,
     GetRandomNode m = inr node ∧
     volumes (ds (create request m).2) !! VolumeCreateRequest.Name request =
       Some {| volumeSpec :=
                 {| OwnerID := ID node;
                    Size := VolumeCreateRequest.Size request;
                    FromBackup := "";
                    NumberOfReplicas := VolumeCreateRequest.NumberOfReplicas request;
                    StaleReplicaTimeout :=
                      VolumeCreateRequest.StaleReplicaTimeout request;
                    DesireState := VolumeStateDetached;
                    RecurringJobs := [];
                    NodeID := "" |};
               volumeStatus := {| Created := Now; State := VolumeStateCreated |};
               metadata := {| Name := VolumeCreateRequest.Name request |} |}).
Proof.
  intros Hb. split.
  - intros GetBackup'. unfold VolumeCreate.
    rewrite !deferred_wrapping.
    destruct (ConvertSize _).2; [done|].
    destruct (GetRandomNode m) as [e|node]; [done|].
    by rewrite !decide_False by (by rewrite Hb; intros []).
  - intros Hp. unfold VolumeCreate. rewrite !deferred_wrapping.
    destruct (ConvertSize _).2; [done|].
    destruct (GetRandomNode m) as [e|node]; [done|].
    rewrite !decide_False by (by rewrite Hb; intros []).
    unfold bind, ret, Debugf. rewrite Hb.
    match goal with
    | |- context [NewVolume ?i m] =>
        pose proof (Hp i m) as Hp'; destruct (NewVolume i m) as [[[e|]|e] m1]
    end; try done.
    intros _. exists node. split; [done|]. cbn. by apply Hp'.
Qed.

Variable ConvertSize' : string -> Z * option error.
Variable Now' : string.
Variable ValidateVolume : VolumeInfo -> option error.

(** X17.  A volume made by VolumeCreate is one VolumeCreateBySpec takes as
    already created: called on its name afterwards, VolumeCreateBySpec
    returns nil, leaves the durable records as VolumeCreate left them and
    sends one event carrying the name. *)
Theorem VolumeCreateBySpec_after_create request m :
  persists NewVolume →
  (create request m).1 = Returns None →
  injected (ds (create request m).2) = None →
  let name := VolumeCreateRequest.Name request in
  let created := (create request m).2 in
  let bySpec := VolumeCreateBySpec ConvertSize' Now' ValidateVolume name created in
  bySpec.1 = Returns None ∧
  durable (ds bySpec.2) = durable (ds created) ∧
  EventChan bySpec.2 = (EventChan created ++ [{| EventVolumeName := name |}])%list.
Proof.
  intros Hp Hok Hi name created bySpec. subst bySpec created.
  destruct (VolumeCreate_success_stores request m Hp Hok) as (info & E & Hs & _).
  fold name in E.
  by rewrite (VolumeCreateBySpec_created _ _ _ name _ info Hi E Hs).
Qed.

End CreatePlain.

Lemma VolumeCreate_without_backup_keeps_size_witness :
  Size <$> (volumeSpec <$>
    volumes (ds (VolumeCreate Example.ConvertSize Example.Now Example.GetBackup
                   Example.GetRandomNode Example.NewVolume
                   (Example.createV2 "10Gi" "")
                   (Example.cluster VolumeStateHealthy)).2) !! "v2")
  = Some "10Gi".
Proof.
  destruct (VolumeCreate_without_backup_keeps_size
              Example.ConvertSize Example.Now Example.GetBackup
              Example.GetRandomNode Example.NewVolume
              (Example.createV2 "10Gi" "")
              (Example.cluster VolumeStateHealthy) eq_refl) as [_ H].
  destruct (H Example_NewVolume_persists eq_refl) as (node & _ & Hv).
  exact (f_equal (fmap Size ∘ fmap volumeSpec) Hv).
Defined.

Lemma VolumeCreateBySpec_after_create_witness :
  (VolumeCreateBySpec Example.ConvertSize Example.Now Example.ValidateVolume "v2"
     (VolumeCreate Example.ConvertSize Example.Now Example.GetBackup
        Example.GetRandomNode Example.NewVolume
        (Example.createV2 "10Gi" "")
        (Example.cluster VolumeStateHealthy)).2).1 = Returns None.
Proof.
  exact (proj1 (VolumeCreateBySpec_after_create
     Example.ConvertSize Example.Now Example.GetBackup
     Example.GetRandomNode Example.NewVolume
     Example.ConvertSize Example.Now Example.ValidateVolume
     (Example.createV2 "10Gi" "") (Example.cluster VolumeStateHealthy)
     Example_NewVolume_persists eq_refl eq_refl)).
Defined.

(** ** Settings *)

Lemma call_UpdateSettings s m :
  call (UpdateSettings s) m =
    match injected (ds m) with
    | Some e => (Returns (Some e), with_ds (served (CallUpdateSettings s) (ds m)) m)
    | None =>
        match settings (ds m) with
        | Some _ =>
            (Returns None,
             with_ds (with_settings (Some s) (served (CallUpdateSettings s) (ds m))) m)
        | None =>
            (Returns (Some (Failure "datastore: no settings")),
             with_ds (served (CallUpdateSettings s) (ds m)) m)
        end
    end.
Proof.
  unfold call, UpdateSettings, write, attempt.
  destruct (injected (ds m)); [done|]. simpl.
  by destruct (settings (ds m)).
Qed.

(** X18.  SettingsGet never panics, and whatever the datastore does: it
    returns an error only when its first read fails, and then that read is
    its only datastore call; the only write it ever makes is the creation of
    the default record in a store that has none, so existing settings are
    never overwritten. *)
Theorem SettingsGet_only_creates_the_default m :
  ∃ s err,
    (SettingsGet m).1 = Returns (s, err) ∧
    (∀ e, err = Some e →
       injected (ds m) = Some e ∧ s = None ∧
       calls (ds (SettingsGet m).2) = (calls (ds m) ++ [CallGetSettings])%list) ∧
    (durable (ds (SettingsGet m).2) = durable (ds m) ∨
     settings (ds m) = None ∧
     durable (ds (SettingsGet m).2) =
       (volumes (ds m), replicas (ds m), Some SettingsInfo_zero)).
Proof.
  unfold SettingsGet. run. rewrite !call_GetSettings.
  destruct (injected (ds m)) as [e|] eqn:Hi.
  { eexists _, _. split; [done|]. split; [|by left]. by intros ? [= <-]. }
  destruct (settings (ds m)) as [s|] eqn:E.
  { eexists _, _. split; [done|]. split; [done|by left]. }
  rewrite !call_CreateSettings. cbn [ds with_ds].
  destruct (injected (served _ (ds m))).
  - cbv beta iota. rewrite !call_GetSettings. cbn [ds with_ds with_logrus].
    match goal with
    | |- context [match injected ?d with _ => _ end] => destruct (injected d)
    end; (eexists _, _; split; [done|]; split; [done|by left]).
  - cbn [settings served with_faults logged]. rewrite E. cbv beta iota.
    rewrite !call_GetSettings. cbn [ds with_ds].
    match goal with
    | |- context [match injected ?d with _ => _ end] => destruct (injected d)
    end; (eexists _, _; split; [done|]; split; [done|by right]).
Qed.

Lemma SettingsGet_only_creates_the_default_witness :
  ∃ s err, (SettingsGet Example.thirdCallFails).1 = Returns (s, err).
Proof.
  destruct (SettingsGet_only_creates_the_default Example.thirdCallFails)
    as (s & err & H & _).
  exists s, err. exact H.
Defined.

(** X19.  Round trip on a reliable datastore, whether or not settings exist
    at the start: after a SettingsGet, SettingsSet of any record succeeds,
    and the next SettingsGet returns that record. *)
Theorem SettingsGet_after_set s m :
  faults (ds m) = [] →
  let read := (SettingsGet m).2 in
  let written := SettingsSet s read in
  written.1 = Returns None ∧
  (SettingsGet written.2).1 = Returns (Some s, None).
Proof.
  intros Hf read written. subst written read.
  assert (∃ d s0, (SettingsGet m).2 = with_ds d m ∧ faults d = [] ∧
                  settings d = Some s0) as (d & s0 & -> & Hfd & Hsd).
  { destruct (settings (ds m)) as [s0|] eqn:E.
    - rewrite (SettingsGet_existing m s0 (injected_reliable _ Hf) E).
      eexists _, s0. split; [done|]. split; [cbn; by rewrite Hf|done].
    - unfold SettingsGet. run. rewrite call_GetSettings.
      rewrite (injected_reliable _ Hf), E. rewrite call_CreateSettings.
      cbn [ds with_ds]. rewrite injected_reliable by (cbn; by rewrite Hf).
      cbn [settings served with_faults logged]. rewrite E.
      rewrite call_GetSettings. cbn [ds with_ds].
      rewrite injected_reliable by (cbn; by rewrite Hf).
      eexists _, SettingsInfo_zero. split; [done|].
      split; [cbn; by rewrite Hf|done]. }
  unfold SettingsSet. rewrite call_UpdateSettings. cbn [ds with_ds].
  rewrite (injected_reliable _ Hfd), Hsd. cbn [fst snd]. split; [done|].
  rewrite (SettingsGet_existing _ s); [done| |done].
  apply injected_reliable. cbn. by rewrite Hfd.
Qed.

Lemma SettingsGet_after_set_witness :
  (SettingsGet
     (SettingsSet {| BackupTarget := "s3://backups@us-east-1/" |}
        (SettingsGet (Example.cluster VolumeStateHealthy)).2).2).1
  = Returns (Some {| BackupTarget := "s3://backups@us-east-1/" |}, None).
Proof.
  exact (proj2 (SettingsGet_after_set
     {| BackupTarget := "s3://backups@us-east-1/" |}
     (Example.cluster VolumeStateHealthy) eq_refl)).
Defined.

(** ** What the record operations leave alone *)

Lemma frame_kept_refl m : frame_kept m m.
Proof. done. Qed.

Lemma frame_kept_ds m m' d : frame_kept m m' → frame_kept m (with_ds d m').
Proof. done. Qed.

Lemma frame_kept_logrus m m' l : frame_kept m m' → frame_kept m (with_logrus l m').
Proof. done. Qed.

Lemma salvageReplicas_frame vol names rest m0 :
  (∀ m1, frame_kept m0 m1 → frame_kept m0 (rest m1).2) →
  ∀ m, frame_kept m0 m → frame_kept m0 (salvageReplicas vol names rest m).2.
Proof.
  intros Hrest. induction names as [|rep names IH]; intros m Hm.
  { by apply Hrest. }
  cbn [salvageReplicas]. unfold bind, ret, panic. rewrite call_GetVolumeReplica.
  destruct (injected (ds m)); [done|].
  destruct (replicas (ds m) !! (vol, rep)) as [r|]; [|done].
  destruct (decide (FailedAt r = "")); [done|].
  rewrite call_UpdateVolumeReplica. cbn [ds with_ds].
  destruct (injected _); [done|].
  destruct (replicas _ !! _); [|done].
  by apply IH.
Qed.

Lemma VolumeAttach_frame request m : frame_kept m (VolumeAttach request m).2.
Proof.
  unfold VolumeAttach. run. rewrite !call_GetVolume.
  destruct (injected (ds m)); [done|].
  destruct (volumes (ds m) !! _) as [v|]; [|done].
  destruct (decide _); [done|].
  rewrite !call_UpdateVolume. cbn [ds with_ds].
  destruct (injected _); [done|]. by destruct (volumes _ !! _).
Qed.

Lemma VolumeDetach_frame request m : frame_kept m (VolumeDetach request m).2.
Proof.
  unfold VolumeDetach. run. rewrite !call_GetVolume.
  destruct (injected (ds m)); [done|].
  destruct (volumes (ds m) !! _) as [v|]; [|done].
  destruct (decide _); [done|].
  rewrite !call_UpdateVolume. cbn [ds with_ds].
  destruct (injected _); [done|]. by destruct (volumes _ !! _).
Qed.

Lemma VolumeDelete_frame request m : frame_kept m (VolumeDelete request m).2.
Proof.
  unfold VolumeDelete. run. rewrite !call_GetVolume.
  destruct (injected (ds m)); [done|].
  destruct (volumes (ds m) !! _) as [v|]; [|done].
  rewrite !call_UpdateVolume. cbn [ds with_ds].
  destruct (injected _); [done|]. by destruct (volumes _ !! _).
Qed.

Lemma VolumeRecurringUpdate_frame request m :
  frame_kept m (VolumeRecurringUpdate request m).2.
Proof.
  unfold VolumeRecurringUpdate. run. rewrite !call_GetVolume.
  destruct (injected (ds m)); [done|].
  destruct (volumes (ds m) !! _) as [v|]; [|done].
  rewrite !call_UpdateVolume. cbn [ds with_ds].
  destruct (injected _); [done|]. by destruct (volumes _ !! _).
Qed.

Lemma VolumeSalvage_frame request m : frame_kept m (VolumeSalvage request m).2.
Proof.
  unfold VolumeSalvage. rewrite deferred_wrapping.
  unfold bind at 1. rewrite call_GetVolume.
  destruct (injected (ds m)); [done|].
  destruct (volumes (ds m) !! _) as [v|]; [|done].
  destruct (decide _); [done|].
  match goal with
  | |- context [salvageReplicas ?vol ?names ?rest ?m1] =>
      assert (H : frame_kept m (salvageReplicas vol names rest m1).2);
      [apply salvageReplicas_frame; [|done]
      |by destruct (salvageReplicas vol names rest m1) as [[?|?] ?]]
  end.
  intros m1 Hm1. unfold bind, ret, Debugf. rewrite call_UpdateVolume.
  destruct (injected (ds m1)); [done|].
  by destruct (volumes (ds m1) !! _).
Qed.

Lemma SettingsGet_frame m : frame_kept m (SettingsGet m).2.
Proof.
  unfold SettingsGet. run. rewrite !call_GetSettings.
  destruct (injected (ds m)); [done|].
  destruct (settings (ds m)) eqn:E; [done|].
  rewrite !call_CreateSettings. cbn [ds with_ds].
  destruct (injected (served _ (ds m))).
  - cbv beta iota. rewrite !call_GetSettings. cbn [ds with_ds with_logrus].
    match goal with
    | |- context [match injected ?d with _ => _ end] => by destruct (injected d)
    end.
  - cbn [settings served with_faults logged]. rewrite E. cbv beta iota.
    rewrite !call_GetSettings. cbn [ds with_ds].
    match goal with
    | |- context [match injected ?d with _ => _ end] => by destruct (injected d)
    end.
Qed.

Lemma SettingsSet_frame s m : frame_kept m (SettingsSet s m).2.
Proof.
  unfold SettingsSet. rewrite call_UpdateSettings.
  destruct (injected (ds m)); [done|]. by destruct (settings (ds m)).
Qed.

(** X20.  Only VolumeCreateBySpec notifies.  VolumeAttach, VolumeDetach,
    VolumeDelete, VolumeSalvage, VolumeRecurringUpdate, SettingsGet and
    SettingsSet send no event and leave the cache of managed volumes and the
    engine image as they were, on success and on failure, whatever the
    datastore does. *)
Theorem record_operations_send_no_event attach detach delete salvage recurring s m :
  frame_kept m (VolumeAttach attach m).2 ∧
  frame_kept m (VolumeDetach detach m).2 ∧
  frame_kept m (VolumeDelete delete m).2 ∧
  frame_kept m (VolumeSalvage salvage m).2 ∧
  frame_kept m (VolumeRecurringUpdate recurring m).2 ∧
  frame_kept m (SettingsGet m).2 ∧
  frame_kept m (SettingsSet s m).2.
Proof.
  split; [|split; [|split; [|split; [|split; [|split]]]]].
  - apply VolumeAttach_frame.
  - apply VolumeDetach_frame.
  - apply VolumeDelete_frame.
  - apply VolumeSalvage_frame.
  - apply VolumeRecurringUpdate_frame.
  - apply SettingsGet_frame.
  - apply SettingsSet_frame.
Qed.
